(** * node-tor-control: a shallow embedding of [index.js]

    The development follows the source file top to bottom:
    - [JsString]: the string primitives the parser relies on
      ([substr], the three regular expressions, [split], [parseInt],
      [ToBoolean]);
    - [Parser]: the body of the reply callback of [sendCommand]
      (lines 135-159 of [index.js]);
    - [Session]: the [TorControl] object, its sockets and their event
      listeners, with [connect], [disconnect], [setPersistent],
      [isPersistent] and [sendCommand] as state transformers, and the
      events a socket can emit as steps of a machine.

    A JavaScript string is a sequence of UTF-16 code units; a chunk of
    socket data is represented by the text [data.toString()] yields.
    The closures of the program are first-order data ([SendCont],
    [ParseCont] and the listeners), each with the variables it captures.
    A function supplied by the caller is opaque: the machine records
    that it is entered, with its arguments and the value of
    [this.connection] at that moment, and assumes that it returns.
    What the caller does next is a further input of the machine. *)

From Stdlib Require Import NArith ZArith String Ascii.
From stdpp Require Import base list.

Local Open Scope N_scope.

(* ===================================================================== *)
(** ** Strings                                                            *)
(* ===================================================================== *)

Module JsString.

(** One UTF-16 code unit. *)
Abbreviation char := N (only parsing).
Abbreviation jsstring := (list N) (only parsing).

(** A literal: the code units of an ASCII string. *)
Definition str (s : string) : jsstring :=
  map N_of_ascii (list_ascii_of_string s).
Arguments str : simpl never.

Definition CR : char := 13.
Definition LF : char := 10.
Definition CRLF : jsstring := [CR; LF].
Definition DQUOTE : char := 34.

(** [s.substr(start)] and [s.substr(start, len)] for [start >= 0]. *)
Definition substr_from (start : nat) (s : jsstring) : jsstring :=
  drop start s.
Definition substr (start len : nat) (s : jsstring) : jsstring :=
  take len (drop start s).

(** [strip_prefix p s] is [Some r] when [s = p ++ r]. *)
Fixpoint strip_prefix (p s : jsstring) : option jsstring :=
  match p, s with
  | [], _ => Some s
  | _ :: _, [] => None
  | a :: p', b :: s' => if a =? b then strip_prefix p' s' else None
  end.

(** The characters the regular expression atom [.] refuses:
    LF, CR, LINE SEPARATOR and PARAGRAPH SEPARATOR. *)
Definition is_line_terminator (c : char) : bool :=
  (c =? 10) || (c =? 13) || (c =? 0x2028) || (c =? 0x2029).

(** [\r?\n] matched at the head of [s]: the text that follows the
    match.  The optional [\r] is tried first, then skipped. *)
Definition match_newline (s : jsstring) : option jsstring :=
  match s with
  | c :: s' =>
      if c =? LF then Some s'
      else if c =? CR then
        match s' with
        | d :: s'' => if d =? LF then Some s'' else None
        | [] => None
        end
      else None
  | [] => None
  end.

(** [/250 OK\r?\n/] matched at the head of [s]. *)
Definition match_250_OK_here (s : jsstring) : bool :=
  match strip_prefix (str "250 OK") s with
  | Some r => bool_decide (is_Some (match_newline r))
  | None => false
  end.

(** [/250 OK\r?\n/.test(s)]: the pattern is not anchored, every start
    position is tried from left to right. *)
Fixpoint test_250_OK (s : jsstring) : bool :=
  match_250_OK_here s ||
  match s with
  | [] => false
  | _ :: s' => test_250_OK s'
  end.

(** [/^250./.test(s)]. *)
Definition test_250_dot (s : jsstring) : bool :=
  match strip_prefix (str "250") s with
  | Some (c :: _) => negb (is_line_terminator c)
  | _ => false
  end.

(** [s.split(/\r?\n/)]: the pieces between the matches, the last piece
    included even when empty; the empty string gives one empty piece. *)
Fixpoint split_lines (s : jsstring) : list jsstring :=
  match s with
  | [] => [[]]
  | c :: s' =>
      if c =? LF then [] :: split_lines s'
      else
        match s' with
        | d :: s'' =>
            if (c =? CR) && (d =? LF) then [] :: split_lines s''
            else match split_lines s' with
                 | l :: ls => (c :: l) :: ls
                 | [] => [[c]]
                 end
        | [] => [[c]]
        end
  end.

(** *** Numbers

    A JavaScript number as far as this program can tell them apart:
    [Finite m e] is [m * 2^e]. *)
Inductive number :=
| NaN
| PosInf
| NegInf
| NegZero
| Finite (m : Z) (e : Z).

#[global] Instance number_eq_dec : EqDecision number.
Proof. solve_decision. Defined.

Definition Int (z : Z) : number := Finite z 0.

(** [StrWhiteSpaceChar]: WhiteSpace (TAB, VT, FF, SP, NBSP, ZWNBSP and
    the space separators) or LineTerminator. *)
Definition is_white_space (c : char) : bool :=
  (c =? 0x09) || (c =? 0x0B) || (c =? 0x0C) || (c =? 0x20) ||
  (c =? 0xA0) || (c =? 0xFEFF) || (c =? 0x1680) ||
  ((0x2000 <=? c) && (c <=? 0x200A)) ||
  (c =? 0x202F) || (c =? 0x205F) || (c =? 0x3000) ||
  is_line_terminator c.

Fixpoint trim_start (s : jsstring) : jsstring :=
  match s with
  | c :: s' => if is_white_space c then trim_start s' else s
  | [] => []
  end.

Definition is_digit (c : char) : bool := (48 <=? c) && (c <=? 57).
Definition digit_value (c : char) : Z := Z.of_N (c - 48).

(** The longest prefix of decimal digits. *)
Fixpoint digits_prefix (s : jsstring) : list char :=
  match s with
  | c :: s' => if is_digit c then c :: digits_prefix s' else []
  | [] => []
  end.

Definition decimal_value (ds : list char) : Z :=
  fold_left (fun acc c => (10 * acc + digit_value c)%Z) ds 0%Z.

(** [parseInt(s, 10)]: leading white space is skipped, one sign is
    accepted, the digits that follow are read and whatever comes after
    them is ignored; without a digit the result is [NaN].  With radix
    10 no [0x] prefix is recognised.  The argument has at most three
    characters in this program, so the value is exact. *)
Definition parseInt10 (s : jsstring) : number :=
  let t := trim_start s in
  let '(negative, t) :=
    match t with
    | c :: t' =>
        if c =? 45 then (true, t')
        else if c =? 43 then (false, t')
        else (false, t)
    | [] => (false, t)
    end in
  match digits_prefix t with
  | [] => NaN
  | ds =>
      let v := decimal_value ds in
      if negative then (if (v =? 0)%Z then NegZero else Int (- v))
      else Int v
  end.

(** *** Values and [ToBoolean] *)
Inductive value :=
| VUndefined
| VNull
| VBool (b : bool)
| VNumber (n : number)
| VBigInt (z : Z)
| VString (s : jsstring)
| VSymbol (id : nat)
| VObject (ref : nat).   (* objects, arrays and functions *)

#[global] Instance value_eq_dec : EqDecision value.
Proof. solve_decision. Defined.

Definition ToBoolean (v : value) : bool :=
  match v with
  | VUndefined | VNull => false
  | VBool b => b
  | VNumber NaN | VNumber NegZero => false
  | VNumber (Finite m _) => negb (m =? 0)%Z
  | VNumber _ => true
  | VBigInt z => negb (z =? 0)%Z
  | VString s => negb (bool_decide (s = []))
  | VSymbol _ | VObject _ => true
  end.

(** [a || b] on values. *)
Definition js_or (a b : value) : value :=
  if ToBoolean a then a else b.

End JsString.
Import JsString.


(* ===================================================================== *)
(** ** The reply parser (the callback handed to [tryDisconnect])          *)
(* ===================================================================== *)

Module Parser.

(** [new Error(message)]. *)
Inductive error := Error (message : jsstring).

(** [{code: 250, messages: messages, data: data}]. *)
Record Reply := mkReply {
  r_code : number;
  r_messages : list jsstring;
  r_data : jsstring
}.

(** [{code: ..., message: ..., data: data}]. *)
Record Failure := mkFailure {
  f_code : number;
  f_message : jsstring;
  f_data : jsstring
}.

(** What a caller-supplied callback can be called with. *)
Inductive cb_args :=
| ArgsNone                                   (* cb() *)
| ArgsErr (e : error)                        (* cb(err) *)
| ArgsConn (connection : option nat)         (* cb(null, connection) *)
| ArgsReply (r : Reply)                      (* cb(null, {...}) *)
| ArgsFailure (e : error) (f : Failure).     (* cb(new Error(data), {...}) *)

(** One turn of the loop body: [arr[i]] is pushed, without its first
    four characters when it matches [/^250./], unless it is empty. *)
Definition push_message (messages : list jsstring) (line : jsstring)
  : list jsstring :=
  if bool_decide (line <> [])
  then messages ++ [if test_250_dot line then substr_from 4 line else line]
  else messages.

(** [for (i = 0; i < arr.length; i += 1) { ... }]. *)
Fixpoint collect (arr : list jsstring) (messages : list jsstring)
  : list jsstring :=
  match arr with
  | [] => messages
  | line :: arr' => collect arr' (push_message messages line)
  end.

(** Lines 139-159, [data] being [data.toString()]. *)
Definition parse_reply (data : jsstring) : cb_args :=
  if test_250_OK data then
    ArgsReply {| r_code := Int 250;
                 r_messages := collect (split_lines data) [];
                 r_data := data |}
  else
    ArgsFailure (Error data)
                {| f_code := parseInt10 (substr 0 3 data);
                   f_message := substr_from 4 data;
                   f_data := data |}.

End Parser.
Import Parser.

(* ===================================================================== *)
(** ** The [TorControl] object, its sockets and the event machine         *)
(* ===================================================================== *)

Module Session.

(** The private [opts] object after the constructor has filled it in.
    [path] is [None] when [opts] has no own property of that name. *)
Record Opts := mkOpts {
  host : value;
  port : value;
  path : option value;
  password : jsstring;
  persistent : value
}.

(** The object a caller passes to the constructor; [None] stands for a
    property the object does not own. *)
Record UserOpts := mkUserOpts {
  u_host : value;
  u_port : value;
  u_path : option value;
  u_password : option jsstring;
  u_persistent : option value
}.

Definition empty_object : UserOpts :=
  mkUserOpts VUndefined VUndefined None None None.

(** The [params] argument of [connect]. *)
Record Params := mkParams {
  p_host : value;
  p_port : value;
  p_path : option value;
  p_password : option jsstring
}.

(** The callback of [connect]: a function of the caller, or the
    function [sendCommand] passes (lines 129-164), which closes over
    [command], [cb] and [keepConnection]. *)
Inductive connect_cb :=
| ConnectUser (id : nat)
| SendCont (command : jsstring) (cb : option nat) (keepConnection : value).

(** The callback of [disconnect]: a function of the caller, or the
    function handed to [tryDisconnect] (lines 134-161), which closes
    over [cb] and [data]. *)
Inductive disconnect_cb :=
| DisconnectUser (id : nat)
| ParseCont (cb : option nat) (data : jsstring).

#[global] Instance connect_cb_eq_dec : EqDecision connect_cb.
Proof. solve_decision. Defined.
#[global] Instance disconnect_cb_eq_dec : EqDecision disconnect_cb.
Proof. solve_decision. Defined.

(** The listeners the program installs on a socket. *)
Inductive listener :=
| ConnErrL (cb : option connect_cb)   (* once 'error', line 60 *)
| PipeData                            (* on 'data', line 68 *)
| PipeEnd                             (* on 'end', line 71 *)
| AuthL (cb : connect_cb)             (* once 'data', line 77 *)
| ReplyL (cb : option nat) (keepConnection : value)
                                      (* once 'data', line 133 *)
| DisconnL (cb : disconnect_cb).      (* once 'end', line 98 *)

#[global] Instance listener_eq_dec : EqDecision listener.
Proof. solve_decision. Defined.

Definition is_once (l : listener) : bool :=
  match l with
  | PipeData | PipeEnd => false
  | _ => true
  end.

(** The event names the program listens to, and what a socket emits. *)
Inductive event_name := OnError | OnData | OnEnd.

Inductive event :=
| EvError (err : jsstring)   (* 'error', [err] as text *)
| EvData (data : jsstring)   (* 'data' *)
| EvEnd.                     (* 'end' *)

Definition name_of (ev : event) : event_name :=
  match ev with
  | EvError _ => OnError
  | EvData _ => OnData
  | EvEnd => OnEnd
  end.

(** A socket returned by [net.connect]: the listeners per event name in
    the order of registration, each with the number of its
    registration, the text written to it and whether [end()] was
    called on it. *)
Record Socket := mkSocket {
  net_params : Params;
  on_error : list (nat * listener);
  on_data : list (nat * listener);
  on_end : list (nat * listener);
  written : list jsstring;
  end_called : bool
}.

(** What leaves the object towards its user. *)
Inductive obs :=
| CbCall (id : nat) (args : cb_args) (connection : option nat)
    (* a function of the caller is entered, [this.connection] being
       [connection] at that moment *)
| EmitData (data : jsstring)   (* self.emit('data', data) *)
| EmitEnd.                     (* self.emit('end') *)

Record State := mkState {
  opts : Opts;
  connection : option nat;    (* [this.connection]: null or a socket *)
  sockets : list Socket;      (* the sockets created so far *)
  next_listener : nat;
  log : list obs
}.

Inductive exn :=
| NotAFunction         (* TypeError: cb is not a function *)
| NullConnection       (* TypeError: connection is null *)
| Unhandled (err : jsstring).  (* 'error' emitted without a listener *)

Inductive outcome :=
| Returned (s : State)
| Thrown (e : exn) (s : State).

Definition and_then (o : outcome) (k : State -> outcome) : outcome :=
  match o with
  | Returned s => k s
  | Thrown e s => Thrown e s
  end.

(** *** The constructor (lines 20-35) *)
Definition TorControl (o : option UserOpts) : State :=
  let o := default empty_object o in
  let '(h, p) :=
    match u_path o with
    | None => (js_or (u_host o) (VString (str "localhost")),
               js_or (u_port o) (VNumber (Int 9051)))
    | Some _ => (u_host o, u_port o)
    end in
  let pw := match u_password o with
            | Some (c :: w) => c :: w
            | _ => []
            end in
  let pers := default (VBool false) (u_persistent o) in
  mkState (mkOpts h p (u_path o) pw pers) None [] 0 [].

(** *** State updates *)
Definition set_opts (o : Opts) (s : State) : State :=
  mkState o (connection s) (sockets s) (next_listener s) (log s).
Definition set_connection (c : option nat) (s : State) : State :=
  mkState (opts s) c (sockets s) (next_listener s) (log s).
Definition set_sockets (l : list Socket) (s : State) : State :=
  mkState (opts s) (connection s) l (next_listener s) (log s).
Definition emit_obs (o : obs) (s : State) : State :=
  mkState (opts s) (connection s) (sockets s) (next_listener s)
          (log s ++ [o]).

Definition listeners (ev : event_name) (k : Socket)
  : list (nat * listener) :=
  match ev with
  | OnError => on_error k
  | OnData => on_data k
  | OnEnd => on_end k
  end.

Definition set_listeners (ev : event_name) (ls : list (nat * listener))
           (k : Socket) : Socket :=
  match ev with
  | OnError =>
      mkSocket (net_params k) ls (on_data k) (on_end k)
               (written k) (end_called k)
  | OnData =>
      mkSocket (net_params k) (on_error k) ls (on_end k)
               (written k) (end_called k)
  | OnEnd =>
      mkSocket (net_params k) (on_error k) (on_data k) ls
               (written k) (end_called k)
  end.

(** [socket.on(ev, l)] and [socket.once(ev, l)]: appended to the
    listeners of [ev]. *)
Definition add_listener (h : nat) (ev : event_name) (l : listener)
           (s : State)
  : State :=
  let n := next_listener s in
  mkState (opts s) (connection s)
          (alter (fun k => set_listeners ev (listeners ev k ++ [(n, l)]) k)
                 h (sockets s))
          (S n) (log s).

(** [socket.removeListener(ev, f)], [f] being the function registered
    as [r]. *)
Definition remove_listener (h : nat) (ev : event_name) (r : nat * listener)
           (s : State) : State :=
  set_sockets
    (alter (fun k =>
              set_listeners ev (filter (fun r' => r' <> r) (listeners ev k)) k)
           h (sockets s)) s.

(** [socket.write(text)]. *)
Definition socket_write (h : nat) (text : jsstring) (s : State) : State :=
  set_sockets
    (alter (fun k =>
              mkSocket (net_params k) (on_error k)
                       (on_data k) (on_end k) (written k ++ [text])
                       (end_called k))
           h (sockets s)) s.

(** [socket.end()]. *)
Definition socket_end (h : nat) (s : State) : State :=
  set_sockets
    (alter (fun k =>
              mkSocket (net_params k) (on_error k)
                       (on_data k) (on_end k) (written k) true)
           h (sockets s)) s.

(** A function of the caller is called: the call is recorded, what the
    function does is its own business. *)
Definition call_user (id : nat) (args : cb_args) (s : State) : outcome :=
  Returned (emit_obs (CbCall id args (connection s)) s).

(** [cb(...)] where [cb] may be undefined. *)
Definition call_maybe (cb : option nat) (args : cb_args) (s : State)
  : outcome :=
  match cb with
  | Some id => call_user id args s
  | None => Thrown NotAFunction s
  end.

(** [this.isPersistent()] (line 110). *)
Definition isPersistent (s : State) : bool :=
  ToBoolean (persistent (opts s)).

(** [this.setPersistent(value)] (lines 112-115). *)
Definition setPersistent (v : value) (s : State) : State :=
  let o := opts s in
  set_opts (mkOpts (host o) (port o) (path o) (password o)
                   (VBool (ToBoolean v))) s.

(** The callback of [disconnect] is called: [cb()]. *)
Definition call_disconnect_cb (c : disconnect_cb) (s : State) : outcome :=
  match c with
  | DisconnectUser id => call_user id ArgsNone s
  | ParseCont cb data =>
      match cb with
      | Some id => call_user id (parse_reply data) s
      | None => Returned s
      end
  end.

Definition QUIT_line : jsstring := str "QUIT" ++ CRLF.

(** [this.disconnect(cb, force)] (lines 90-107). *)
Definition disconnect (cb : option disconnect_cb) (force : value)
           (s : State) : outcome :=
  match connection s with
  | None =>
      match cb with
      | Some c => call_disconnect_cb c s
      | None => Returned s
      end
  | Some h =>
      let s := match cb with
               | Some c => add_listener h OnEnd (DisconnL c) s
               | None => s
               end in
      if ToBoolean force then Returned (socket_end h s)
      else Returned (socket_write h QUIT_line s)
  end.

(** [tryDisconnect(callback)] (lines 123-128). *)
Definition tryDisconnect (keepConnection : value) (callback : disconnect_cb)
           (s : State) : outcome :=
  if ToBoolean keepConnection || isPersistent s
     || bool_decide (connection s = None)
  then call_disconnect_cb callback s
  else disconnect (Some callback) VUndefined s.

(** The callback of [connect] is called with [(err)] or with
    [(null, connection)]. *)
Definition call_connect_cb (c : connect_cb) (r : error + option nat)
           (s : State) : outcome :=
  match c with
  | ConnectUser id =>
      match r with
      | inl e => call_user id (ArgsErr e) s
      | inr conn => call_user id (ArgsConn conn) s
      end
  | SendCont command cb keepConnection =>
      match r with
      | inl e => call_maybe cb (ArgsErr e) s
      | inr None => Thrown NullConnection s
      | inr (Some h) =>
          Returned
            (socket_write h (command ++ CRLF)
               (add_listener h OnData (ReplyL cb keepConnection) s))
      end
  end.

(** The object [net.connect] receives (lines 39 and 48-55): [opts]
    itself when [params] is missing. *)
Definition resolve_params (o : Opts) (params : option Params) : Params :=
  match params with
  | None => mkParams (host o) (port o) (path o) (Some (password o))
  | Some p =>
      match p_path p with
      | Some _ => p
      | None =>
          match path o with
          | Some pa => mkParams (p_host p) (p_port p) (Some pa) (p_password p)
          | None => mkParams (js_or (p_host p) (host o))
                             (js_or (p_port p) (port o))
                             None (p_password p)
          end
      end
  end.

(** [params.password || opts.password]. *)
Definition effective_password (o : Opts) (p : Params) : jsstring :=
  match p_password p with
  | Some (c :: w) => c :: w
  | _ => password o
  end.

Definition authenticate_line (pw : jsstring) : jsstring :=
  str "AUTHENTICATE " ++ [DQUOTE] ++ pw ++ [DQUOTE] ++ CRLF.

(** [this.connect(params, cb)] (lines 37-88). *)
Definition connect (params : option Params) (cb : option connect_cb)
           (s : State) : outcome :=
  match connection s with
  | Some h =>
      match cb with
      | Some c => call_connect_cb c (inr (Some h)) s
      | None => Returned s
      end
  | None =>
      let p := resolve_params (opts s) params in
      let pw := effective_password (opts s) p in
      let h := length (sockets s) in
      let s := set_sockets (sockets s ++ [mkSocket p [] [] [] [] false]) s in
      let s := set_connection (Some h) s in
      let s := add_listener h OnError (ConnErrL cb) s in
      let s := add_listener h OnData PipeData s in
      let s := add_listener h OnEnd PipeEnd s in
      let s := match cb with
               | Some c => add_listener h OnData (AuthL c) s
               | None => s
               end in
      Returned (socket_write h (authenticate_line pw) s)
  end.

(** [sendCommand(command, cb, keepConnection)] (lines 121-165). *)
Definition sendCommand (command : jsstring) (cb : option nat)
           (keepConnection : value) (s : State) : outcome :=
  connect None (Some (SendCont command cb keepConnection)) s.

(** A listener is entered with the argument of the event. *)
Definition run_listener (l : listener) (ev : event) (s : State) : outcome :=
  match l, ev with
  | ConnErrL cb, EvError err =>
      match cb with
      | Some c =>
          call_connect_cb c
            (inl (Error (str "Error connecting to control port: " ++ err))) s
      | None => Returned s
      end
  | PipeData, EvData data => Returned (emit_obs (EmitData data) s)
  | PipeEnd, EvEnd => Returned (emit_obs EmitEnd (set_connection None s))
  | AuthL c, EvData data =>
      if bool_decide (substr 0 3 data = str "250")
      then call_connect_cb c (inr (connection s)) s
      else call_connect_cb c
             (inl (Error (str "Authentication failed with message: "
                          ++ data))) s
  | ReplyL cb keepConnection, EvData data =>
      tryDisconnect keepConnection (ParseCont cb data) s
  | DisconnL c, EvEnd => call_disconnect_cb c s
  | _, _ => Returned s
  end.

(** [emitter.emit]: the listeners registered when the event is emitted
    are entered in the order of their registration, a [once] listener
    being removed just before it is entered; an exception ends it. *)
Fixpoint run_listeners (h : nat) (ev : event) (ls : list (nat * listener))
         (s : State) : outcome :=
  match ls with
  | [] => Returned s
  | (n, l) :: ls' =>
      let s := if is_once l then remove_listener h (name_of ev) (n, l) s
               else s in
      and_then (run_listener l ev s) (run_listeners h ev ls')
  end.

Definition emit (h : nat) (ev : event) (s : State) : outcome :=
  match sockets s !! h with
  | None => Returned s
  | Some k =>
      match ev, listeners (name_of ev) k with
      | EvError err, [] => Thrown (Unhandled err) s
      | _, ls => run_listeners h ev ls s
      end
  end.

(** *** The machine: calls from the user and events from the sockets *)
Inductive input :=
| Call_sendCommand (command : jsstring) (cb : option nat)
                   (keepConnection : value)
| Call_connect (params : option Params) (cb : option nat)
| Call_disconnect (cb : option nat) (force : value)
| Call_setPersistent (v : value)
| Socket_emits (h : nat) (ev : event).

Definition step (i : input) (s : State) : outcome :=
  match i with
  | Call_sendCommand command cb keep => sendCommand command cb keep s
  | Call_connect params cb => connect params (ConnectUser <$> cb) s
  | Call_disconnect cb force => disconnect (DisconnectUser <$> cb) force s
  | Call_setPersistent v => Returned (setPersistent v s)
  | Socket_emits h ev => emit h ev s
  end.

(** An uncaught exception ends the run. *)
Fixpoint run (inputs : list input) (s : State) : outcome :=
  match inputs with
  | [] => Returned s
  | i :: inputs' => and_then (step i s) (run inputs')
  end.

(** The calls into functions of the caller, oldest first. *)
Definition calls (l : list obs) : list (nat * cb_args * option nat) :=
  omap (fun o => match o with
                 | CbCall id args c => Some (id, args, c)
                 | _ => None
                 end) l.

End Session.
Import Session.

(* ===================================================================== *)
(** ** Vocabulary of the properties                                       *)
(* ===================================================================== *)

Definition state_of (o : outcome) : State :=
  match o with
  | Returned s => s
  | Thrown _ s => s
  end.

(** The text written so far to socket [h]. *)
Definition written_to (h : nat) (s : State) : list jsstring :=
  match sockets s !! h with
  | Some k => written k
  | None => []
  end.

Definition nonempty (line : jsstring) : Prop := line <> [].

(** What the loop of [parse_reply] does to one line. *)
Definition strip_250 (line : jsstring) : jsstring :=
  if test_250_dot line then substr_from 4 line else line.

(** The reply is handed to the caller as a success. *)
Definition classified_success (data : jsstring) : bool :=
  match parse_reply data with
  | ArgsReply _ => true
  | _ => false
  end.

(** The last line of a reply that has any text. *)
Definition final_status_line (data : jsstring) : option jsstring :=
  last (filter nonempty (split_lines data)).

(** The success rule in the words of the specification: the final
    status line is [250 OK]. *)
Definition success_as_specified (data : jsstring) : Prop :=
  final_status_line data = Some (str "250 OK").

(** The messages in the words of the specification: every non-empty
    line without its first four characters. *)
Definition messages_as_specified (data : jsstring) : list jsstring :=
  map (substr_from 4) (filter nonempty (split_lines data)).

(** The listeners for ['end'] every socket of [connect] carries:
    [PipeEnd] first, then the pending callbacks of [disconnect]. *)
Definition is_DisconnL (r : nat * listener) : Prop :=
  match r.2 with
  | DisconnL _ => True
  | _ => False
  end.

Definition end_listeners_ok (k : Socket) : Prop :=
  match on_end k with
  | (_, PipeEnd) :: ls => Forall is_DisconnL ls
  | _ => False
  end.

(** The invariant of the machine: [this.connection] is one of the
    sockets created so far, and each of them has the listeners above. *)
Definition wf (s : State) : Prop :=
  Forall end_listeners_ok (sockets s) /\
  match connection s with
  | Some h => (h < length (sockets s))%nat
  | None => True
  end.

Definition data_events (h : nat) (chunks : list jsstring) : list input :=
  map (fun d => Socket_emits h (EvData d)) chunks.

(** One command on a new object, the server accepting the password and
    sending its reply in [chunks] before it ends the stream. *)
Definition dispatch (o : option UserOpts) (command : jsstring) (id : nat)
           (keepConnection : value) (chunks : list jsstring) : outcome :=
  run (Call_sendCommand command (Some id) keepConnection
       :: Socket_emits 0 (EvData (str "250 OK" ++ CRLF))
       :: data_events 0 chunks ++ [Socket_emits 0 EvEnd])
      (TorControl o).

(** What the callback of that command was called with. *)
Definition delivered (o : option UserOpts) (command : jsstring)
           (keepConnection : value) (chunks : list jsstring)
  : list cb_args :=
  map (fun c => c.1.2)
      (calls (log (state_of (dispatch o command 1 keepConnection chunks)))).

(** The data chunk begins with the status [250]. *)
Definition begins_250 (data : jsstring) : Prop :=
  substr 0 3 data = str "250".

(** No chunk received so far accepts the password. *)
Definition never_authenticated (inputs : list input) : Prop :=
  Forall (fun i => match i with
                   | Socket_emits _ (EvData d) => ~ begins_250 d
                   | _ => True
                   end) inputs.

(** The two ways an attempt to connect fails, with the error the
    callback of [connect] receives (lines 62 and 82). *)
Definition connect_failure (ev : event) : option error :=
  match ev with
  | EvError err =>
      Some (Error (str "Error connecting to control port: " ++ err))
  | EvData d =>
      if bool_decide (begins_250 d) then None
      else Some (Error (str "Authentication failed with message: " ++ d))
  | EvEnd => None
  end.

(** The reply of a server that refuses the password. *)
Definition bad_authentication : jsstring :=
  str "515 Bad authentication" ++ CRLF.

(** [connect] with a callback, refused. *)
Definition failed_open : list input :=
  [Call_connect None (Some 1%nat);
   Socket_emits 0 (EvData bad_authentication)].

(** A command whose password is refused, then a second command. *)
Definition failed_send_then_send : list input :=
  [Call_sendCommand (str "SIGNAL NEWNYM") (Some 1%nat) VUndefined;
   Socket_emits 0 (EvData bad_authentication);
   Call_sendCommand (str "GETINFO version") (Some 2%nat) VUndefined].

(** Independence of fragmentation in the words of the specification:
    chunks with the same bytes deliver the same result. *)
Definition fragmentation_independent : Prop :=
  forall o command keep chunks1 chunks2,
    concat chunks1 = concat chunks2 ->
    delivered o command keep chunks1 = delivered o command keep chunks2.


(** A command has been sent on a new object and its password
    accepted. *)
Definition awaiting_reply : State :=
  state_of (run [Call_sendCommand (str "SIGNAL NEWNYM") (Some 1%nat)
                   VUndefined;
                 Socket_emits 0 (EvData (str "250 OK" ++ CRLF))]
                (TorControl None)).

(* ===================================================================== *)
(** ** The commands (lines 167-270 of [index.js])                         *)
(* ===================================================================== *)

(** The methods of the prototype that build a command and hand it to
    [sendCommand].  Their arguments are strings, as the protocol has
    them; an optional argument is [None] when it is left out. *)
Module Commands.

(** [array.join(sep)] on an array of strings. *)
Fixpoint join_rest (sep : jsstring) (l : list jsstring) : jsstring :=
  match l with
  | [] => []
  | x :: l' => sep ++ x ++ join_rest sep l'
  end.

Definition join (sep : jsstring) (l : list jsstring) : jsstring :=
  match l with
  | [] => []
  | x :: l' => x ++ join_rest sep l'
  end.

Definition setConf (request : jsstring) (cb : option nat) :=
  sendCommand (str "SETCONF " ++ request) cb VUndefined.
Definition resetConf (request : jsstring) (cb : option nat) :=
  sendCommand (str "RESETCONF " ++ request) cb VUndefined.
Definition getConf (request : jsstring) (cb : option nat) :=
  sendCommand (str "GETCONF " ++ request) cb VUndefined.
Definition getEvents (request : jsstring) (cb : option nat) :=
  sendCommand (str "GETEVENTS " ++ request) cb VUndefined.
Definition saveConf (request : jsstring) (cb : option nat) :=
  sendCommand (str "SAVECONF " ++ request) cb VUndefined.

Definition signal (sig : jsstring) (cb : option nat)
           (keepConnection : value) :=
  sendCommand (str "SIGNAL " ++ sig) cb keepConnection.
Definition signalReload (cb : option nat) :=
  signal (str "RELOAD") cb (VBool true).
Definition signalHup (cb : option nat) :=
  signal (str "HUP") cb VUndefined.
Definition signalShutdown (cb : option nat) :=
  signal (str "SHUTDOWN") cb (VBool true).
Definition signalDump (cb : option nat) :=
  signal (str "DUMP") cb VUndefined.
Definition signalUsr1 (cb : option nat) :=
  signal (str "USR1") cb VUndefined.
Definition signalDebug (cb : option nat) :=
  signal (str "DEBUG") cb VUndefined.
Definition signalUsr2 (cb : option nat) :=
  signal (str "USR2") cb VUndefined.
Definition signalHalt (cb : option nat) :=
  signal (str "HALT") cb (VBool true).
Definition signalTerm (cb : option nat) :=
  signal (str "TERM") cb (VBool true).
Definition signalInt (cb : option nat) :=
  signal (str "INT") cb VUndefined.
Definition signalNewnym (cb : option nat) :=
  signal (str "NEWNYM") cb VUndefined.
Definition signalCleardnscache (cb : option nat) :=
  signal (str "CLEARDNSCACHE") cb VUndefined.

Definition mapAddress (address : jsstring) (cb : option nat) :=
  sendCommand (str "MAPADDRESS " ++ address) cb VUndefined.

(** [getInfo(request, cb)]: [request] is one key or an array of keys. *)
Definition getInfo (request : jsstring + list jsstring) (cb : option nat) :=
  let request := match request with
                 | inl key => [key]
                 | inr keys => keys
                 end in
  sendCommand (str "GETINFO " ++ join (str " ") request) cb VUndefined.

(** [str += ' ' + x] under [if (x)]. *)
Definition append_if_given (text : jsstring) (x : option jsstring)
  : jsstring :=
  match x with
  | Some (c :: w) => text ++ str " " ++ c :: w
  | _ => text
  end.

Definition extendCircuit (id : jsstring) (superspec purpose : option jsstring)
           (cb : option nat) :=
  sendCommand
    (append_if_given
       (append_if_given (str "EXTENDCIRCUIT " ++ id) superspec) purpose)
    cb VUndefined.

Definition setCircuitPurpose (id purpose : jsstring) (cb : option nat) :=
  sendCommand (str "SETCIRCUITPURPOSE " ++ id ++ str " purpose=" ++ purpose)
              cb VUndefined.

Definition setRouterPurpose (nicknameOrKey purpose : jsstring)
           (cb : option nat) :=
  sendCommand (str "SETROUTERPURPOSE " ++ nicknameOrKey ++ str " " ++ purpose)
              cb VUndefined.

Definition attachStream (streamId circuitId : jsstring)
           (hop : option jsstring) (cb : option nat) :=
  sendCommand
    (append_if_given (str "ATTACHSTREAM " ++ streamId ++ str " " ++ circuitId)
                     hop)
    cb VUndefined.

(** [getNewCircuit(cb)] calls [this.sendSignalNewNym(cb)].  Neither the
    object nor its prototypes have a property of that name (the function
    so named is the value of [signalNewnym]), so the call is a call of
    [undefined]. *)
Definition getNewCircuit (cb : option nat) (s : State) : outcome :=
  Thrown NotAFunction s.

End Commands.
Import Commands.

(* ===================================================================== *)
(** ** Further vocabulary                                                 *)
(* ===================================================================== *)

(** NaN, minus zero, or an integer from -99 to 999. *)
Definition three_character_number (n : number) : Prop :=
  match n with
  | NaN | NegZero => True
  | Finite m e => e = 0%Z /\ (-99 <= m <= 999)%Z
  | _ => False
  end.

(** The command as it is written to the socket. *)
Definition command_line (command : jsstring) : jsstring := command ++ CRLF.

(** An accepted password. *)
Definition authenticated : jsstring := str "250 OK" ++ CRLF.

(** One command and the reply chunk the server answers it with. *)
Record exchange := mkExchange {
  x_command : jsstring;
  x_cb : nat;
  x_keep : value;
  x_reply : jsstring
}.

(** A command on a new socket [h]: the password is accepted with the
    chunk [ok], the reply arrives, the server ends the stream. *)
Definition exchange_inputs (h : nat) (ok : jsstring) (x : exchange)
  : list input :=
  [Call_sendCommand (x_command x) (Some (x_cb x)) (x_keep x);
   Socket_emits h (EvData ok);
   Socket_emits h (EvData (x_reply x));
   Socket_emits h EvEnd].

(** Commands one after the other, each on the socket made for it. *)
Fixpoint session_inputs (h : nat) (ok : jsstring) (xs : list exchange)
  : list input :=
  match xs with
  | [] => []
  | x :: xs' => exchange_inputs h ok x ++ session_inputs (S h) ok xs'
  end.

(** Commands one after the other on the open socket [h]. *)
Definition steady_inputs (h : nat) (xs : list exchange) : list input :=
  concat (map (fun x =>
                 [Call_sendCommand (x_command x) (Some (x_cb x)) (x_keep x);
                  Socket_emits h (EvData (x_reply x))]) xs).

(** The result each command's callback receives. *)
Definition result_of (x : exchange) : nat * cb_args :=
  (x_cb x, parse_reply (x_reply x)).

(** The calls into the caller without the connection they saw. *)
Definition deliveries (l : list obs) : list (nat * cb_args) :=
  map (fun c => (c.1.1, c.1.2)) (calls l).

(** The listeners for ['data'] every socket of [connect] carries: the
    forwarding listener first, then listeners waiting for one chunk. *)
Definition is_reader (r : nat * listener) : Prop :=
  match r.2 with
  | AuthL _ | ReplyL _ _ => True
  | _ => False
  end.

Definition data_listeners_ok (k : Socket) : Prop :=
  match on_data k with
  | (_, PipeData) :: ls => Forall is_reader ls
  | _ => False
  end.

Definition wf_data (s : State) : Prop :=
  Forall data_listeners_ok (sockets s).

Definition not_data_event (o : obs) : Prop :=
  match o with
  | EmitData _ => False
  | _ => True
  end.

(** A line of text, and lines as the server sends them: each followed
    by CR LF. *)
Definition is_break (c : N) : Prop := c = LF \/ c = CR.

Definition one_line (line : jsstring) : Prop :=
  Forall (fun c => ~ is_break c) line.

Definition wire (lines : list jsstring) : jsstring :=
  concat (map (fun line => line ++ CRLF) lines).

(** What a listener waiting for the end of the stream hands to the
    caller when it runs, [this.connection] being [c]. *)
Definition end_call (c : option nat) (r : nat * listener) : option obs :=
  match r.2 with
  | DisconnL (DisconnectUser id) => Some (CbCall id ArgsNone c)
  | DisconnL (ParseCont (Some id) data) =>
      Some (CbCall id (parse_reply data) c)
  | _ => None
  end.

(** The socket of [awaiting_reply]. *)
Definition awaiting_reply_socket : Socket :=
  mkSocket
    (mkParams (VString (str "localhost")) (VNumber (Int 9051)) None (Some []))
    [(0%nat,
      ConnErrL (Some (SendCont (str "SIGNAL NEWNYM") (Some 1%nat) VUndefined)))]
    [(1%nat, PipeData); (4%nat, ReplyL (Some 1%nat) VUndefined)]
    [(2%nat, PipeEnd)]
    [authenticate_line []; str "SIGNAL NEWNYM" ++ CRLF]
    false.

(** The signals whose method asks for the connection to be kept, and
    the others. *)
Definition kept_signals : list (jsstring * (option nat -> State -> outcome)) :=
  [(str "RELOAD", signalReload); (str "SHUTDOWN", signalShutdown);
   (str "HALT", signalHalt); (str "TERM", signalTerm)].

Definition closing_signals
  : list (jsstring * (option nat -> State -> outcome)) :=
  [(str "HUP", signalHup); (str "DUMP", signalDump);
   (str "USR1", signalUsr1); (str "DEBUG", signalDebug);
   (str "USR2", signalUsr2); (str "INT", signalInt);
   (str "NEWNYM", signalNewnym); (str "CLEARDNSCACHE", signalCleardnscache)].

(** The log grows, by something else than forwarded chunks. *)
Definition extends_quietly (s : State) (o : outcome) : Prop :=
  exists more,
    log (state_of o) = log s ++ more /\ Forall not_data_event more.



(** The object owns a property [path], whatever its value. *)
Definition owns_path (o : option UserOpts) : Prop :=
  is_Some (u_path (default empty_object o)).

(** Removal of one registration from a list of registrations. *)
Ltac remove_registration :=
  rewrite ?filter_cons, ?filter_nil;
  repeat (let Hreg := fresh "Hreg" in
          case_decide as Hreg; try congruence);
  try reflexivity.

(* ===================================================================== *)
(** ** The parser                                                         *)
(* ===================================================================== *)

Lemma strip_prefix_Some (p s r : jsstring) :
  strip_prefix p s = Some r <-> s = p ++ r.
Proof.
  revert s; induction p as [|a p IH]; intros s; simpl.
  - split; congruence.
  - destruct s as [|b s]; [split; discriminate|].
    destruct (N.eqb_spec a b) as [->|Hne].
    + rewrite IH. split; congruence.
    + split; [discriminate|]. intros [= E _]. congruence.
Qed.

Lemma match_newline_Some (s r : jsstring) :
  match_newline s = Some r <-> s = [LF] ++ r \/ s = CRLF ++ r.
Proof.
  unfold match_newline, CRLF. destruct s as [|c s]; simpl.
  - split; [discriminate | intros [?|?]; discriminate].
  - destruct (N.eqb_spec c LF) as [->|Hc].
    + split; [intros [= ->]; by left | intros [[= ->]|[=]]; done].
    + destruct (N.eqb_spec c CR) as [->|Hc'].
      * destruct s as [|d s]; simpl.
        { split; [discriminate | intros [[=]|[=]]]. }
        destruct (N.eqb_spec d LF) as [->|Hd].
        { split; [intros [= ->]; by right | intros [[=]|[= ->]]; done]. }
        split; [discriminate | intros [[=]|[= ? ?]]; congruence].
      * split; [discriminate | intros [[= ? ?]|[= ? ?]]; congruence].
Qed.

Lemma match_250_OK_here_true (s : jsstring) :
  match_250_OK_here s = true <->
  exists nl post, (nl = [LF] \/ nl = CRLF) /\ s = str "250 OK" ++ nl ++ post.
Proof.
  unfold match_250_OK_here.
  destruct (strip_prefix (str "250 OK") s) as [r|] eqn:E.
  - apply strip_prefix_Some in E as ->. rewrite bool_decide_eq_true. split.
    + intros [t Ht]. apply match_newline_Some in Ht as [->| ->].
      * exists [LF], t. split; [by left | done].
      * exists CRLF, t. split; [by right | done].
    + intros (nl & post & Hnl & H). apply app_inv_head in H as ->.
      exists post. apply match_newline_Some. destruct Hnl as [->| ->]; auto.
  - split; [discriminate|]. intros (nl & post & _ & ->).
    assert (strip_prefix (str "250 OK") (str "250 OK" ++ nl ++ post)
            = Some (nl ++ post)) as E' by by apply strip_prefix_Some.
    congruence.
Qed.

(** The unanchored search finds the pattern exactly when the text
    [250 OK] followed by LF or CR LF occurs somewhere in [s]. *)
Lemma test_250_OK_true (s : jsstring) :
  test_250_OK s = true <->
  exists pre nl post,
    (nl = [LF] \/ nl = CRLF) /\ s = pre ++ str "250 OK" ++ nl ++ post.
Proof.
  induction s as [|a s IH].
  - split; [discriminate|]. intros (pre & nl & post & _ & E).
    apply (f_equal length) in E. rewrite !length_app in E.
    simpl in E. lia.
  - change (test_250_OK (a :: s))
      with (match_250_OK_here (a :: s) || test_250_OK s).
    rewrite orb_true_iff, IH, match_250_OK_here_true. split.
    + intros [(nl & post & Hnl & E)|(pre & nl & post & Hnl & E)].
      * by exists [], nl, post.
      * exists (a :: pre), nl, post. split; [done|]. by rewrite E.
    + intros (pre & nl & post & Hnl & E). destruct pre as [|b pre].
      * left. by exists nl, post.
      * right. injection E as -> ->. by exists pre, nl, post.
Qed.

Lemma test_250_dot_true (line : jsstring) :
  test_250_dot line = true <->
  exists c rest, line = str "250" ++ c :: rest /\ is_line_terminator c = false.
Proof.
  unfold test_250_dot.
  destruct (strip_prefix (str "250") line) as [r|] eqn:E.
  - apply strip_prefix_Some in E as ->. destruct r as [|c r].
    + split; [discriminate|]. intros (c & rest & E & _).
      apply app_inv_head in E. discriminate.
    + rewrite negb_true_iff. split.
      * intros Hc. by exists c, r.
      * intros (c' & rest & E & Hc). apply app_inv_head in E.
        by injection E as -> ->.
  - split; [discriminate|]. intros (c & rest & -> & _).
    assert (strip_prefix (str "250") (str "250" ++ c :: rest)
            = Some (c :: rest)) as E' by by apply strip_prefix_Some.
    congruence.
Qed.

(** The loop pushes, in order, one message per non-empty line. *)
Lemma collect_spec (arr acc : list jsstring) :
  collect arr acc = acc ++ map strip_250 (filter nonempty arr).
Proof.
  revert acc; induction arr as [|line arr IH]; intros acc; simpl.
  - by rewrite app_nil_r.
  - rewrite IH. unfold push_message. rewrite filter_cons.
    unfold nonempty at 2. case_bool_decide; case_decide; try done.
    by rewrite <- app_assoc.
Qed.

Lemma classified_success_test (data : jsstring) :
  classified_success data = test_250_OK data.
Proof.
  unfold classified_success, parse_reply. by destruct (test_250_OK data).
Qed.

Lemma is_digit_range (c : N) : is_digit c = true <-> 48 <= c <= 57.
Proof. unfold is_digit. rewrite andb_true_iff, !N.leb_le. tauto. Qed.

Lemma digit_not_white_space (c : N) :
  is_digit c = true -> is_white_space c = false.
Proof.
  rewrite is_digit_range. intros Hc.
  unfold is_white_space, is_line_terminator.
  repeat (apply orb_false_intro);
    try (apply N.eqb_neq; lia).
  apply andb_false_iff. left. apply N.leb_gt. lia.
Qed.

(** Three digits are read as the number they spell. *)
Lemma parseInt10_three_digits (a b c : N) :
  is_digit a = true -> is_digit b = true -> is_digit c = true ->
  parseInt10 [a; b; c]
  = Int (100 * digit_value a + 10 * digit_value b + digit_value c).
Proof.
  intros Ha Hb Hc. unfold parseInt10. simpl trim_start.
  rewrite (digit_not_white_space a Ha).
  apply is_digit_range in Ha as Ha'.
  destruct (N.eqb_spec a 45) as [?|_]; [lia|].
  destruct (N.eqb_spec a 43) as [?|_]; [lia|].
  simpl digits_prefix. rewrite Ha, Hb, Hc.
  unfold decimal_value, Int. simpl fold_left. f_equal. lia.
Qed.

(** Without a digit after the optional sign there is no number. *)
Lemma parseInt10_no_digit (c : N) (rest : jsstring) :
  is_white_space c = false -> is_digit c = false -> c <> 45 -> c <> 43 ->
  parseInt10 (c :: rest) = NaN.
Proof.
  intros Hw Hd Hm Hp. unfold parseInt10. simpl trim_start. rewrite Hw.
  destruct (N.eqb_spec c 45) as [?|_]; [done|].
  destruct (N.eqb_spec c 43) as [?|_]; [done|].
  simpl. by rewrite Hd.
Qed.

(** C1, as stated, fails: a reply whose only line is
    [552 Unknown 250 OK] is handed over as a success although its final
    status line is not [250 OK]. *)
Lemma C1_counterexample :
  classified_success (str "552 Unknown 250 OK" ++ CRLF) = true /\
  final_status_line (str "552 Unknown 250 OK" ++ CRLF)
  = Some (str "552 Unknown 250 OK") /\
  ~ success_as_specified (str "552 Unknown 250 OK" ++ CRLF).
Proof.
  split; [reflexivity|]. split; [reflexivity|].
  unfold success_as_specified. vm_compute. discriminate.
Qed.

(** C1, amended: the reply is a success exactly when the text [250 OK]
    immediately followed by LF or CR LF occurs somewhere in it, on
    whatever line; every other reply is handed to the callback as an
    error made of the reply text; and what the callback of a command
    receives is this classification of the chunk. *)
Theorem C1_success_iff_pattern_occurs (data : jsstring) :
  (classified_success data = true <->
   exists pre nl post,
     (nl = [LF] \/ nl = CRLF) /\ data = pre ++ str "250 OK" ++ nl ++ post) /\
  (classified_success data = false <->
   exists f, parse_reply data = ArgsFailure (Error data) f) /\
  (forall id s,
     call_disconnect_cb (ParseCont (Some id) data) s
     = Returned (emit_obs (CbCall id (parse_reply data) (connection s)) s)).
Proof.
  split; [|split].
  - rewrite classified_success_test. apply test_250_OK_true.
  - unfold classified_success, parse_reply.
    destruct (test_250_OK data); split; try done.
    + intros [f [=]].
    + intros _. eauto.
  - reflexivity.
Qed.

(** C2, as stated, fails: in [650 BW 100 200 / 250 OK] the first line
    keeps its four leading characters. *)
Lemma C2_counterexample :
  parse_reply (str "650 BW 100 200" ++ CRLF ++ str "250 OK" ++ CRLF)
  = ArgsReply
      (mkReply (Int 250) [str "650 BW 100 200"; str "OK"]
         (str "650 BW 100 200" ++ CRLF ++ str "250 OK" ++ CRLF)) /\
  messages_as_specified
    (str "650 BW 100 200" ++ CRLF ++ str "250 OK" ++ CRLF)
  = [str "BW 100 200"; str "OK"] /\
  [str "650 BW 100 200"; str "OK"]
  <> messages_as_specified
       (str "650 BW 100 200" ++ CRLF ++ str "250 OK" ++ CRLF).
Proof.
  split; [reflexivity|]. split; [reflexivity|].
  vm_compute. discriminate.
Qed.

(** C2, amended: the messages of a successful reply are its non-empty
    lines in arrival order, one entry each; a line loses its first four
    characters exactly when it begins with [250] followed by a character
    that is not a line terminator, and is kept whole otherwise.  A bare
    [250 OK] line gives the single message [OK]. *)
Theorem C2_messages_of_success (data : jsstring) :
  classified_success data = true ->
  parse_reply data
  = ArgsReply
      (mkReply (Int 250)
         (map strip_250 (filter nonempty (split_lines data))) data) /\
  (forall line,
     (forall c rest,
        line = str "250" ++ c :: rest -> is_line_terminator c = false ->
        strip_250 line = rest) /\
     ((~ exists c rest,
          line = str "250" ++ c :: rest /\ is_line_terminator c = false) ->
      strip_250 line = line)) /\
  parse_reply (str "250 OK" ++ CRLF)
  = ArgsReply (mkReply (Int 250) [str "OK"] (str "250 OK" ++ CRLF)).
Proof.
  intros H. rewrite classified_success_test in H.
  split; [|split; [|reflexivity]].
  - unfold parse_reply. rewrite H, collect_spec. reflexivity.
  - intros line. unfold strip_250. split.
    + intros c rest -> Hc.
      assert (test_250_dot (str "250" ++ c :: rest) = true) as ->.
      { apply test_250_dot_true. by exists c, rest. }
      reflexivity.
    + intros Hno. destruct (test_250_dot line) eqn:E; [|done].
      apply test_250_dot_true in E. contradiction.
Qed.

Lemma C2_messages_witness :
  parse_reply (str "250-version=0.4.8" ++ CRLF ++ str "250 OK" ++ CRLF)
  = ArgsReply
      (mkReply (Int 250) [str "version=0.4.8"; str "OK"]
         (str "250-version=0.4.8" ++ CRLF ++ str "250 OK" ++ CRLF)).
Proof.
  exact (proj1 (C2_messages_of_success
                  (str "250-version=0.4.8" ++ CRLF ++ str "250 OK" ++ CRLF)
                  eq_refl)).
Defined.

(** C7: a reply that is not a success reaches the callback as
    [new Error(data)] together with the payload whose code is
    [parseInt] of the first three characters, whose message is the text
    from the fifth character on and whose data is the whole text; three
    leading digits give the number they spell, and a first character
    that cannot start a number gives NaN. *)
Theorem C7_failure_payload (id : nat) (data : jsstring) (s : State) :
  classified_success data = false ->
  call_disconnect_cb (ParseCont (Some id) data) s
  = Returned
      (emit_obs
         (CbCall id
            (ArgsFailure (Error data)
               (mkFailure (parseInt10 (substr 0 3 data))
                          (substr_from 4 data) data))
            (connection s)) s) /\
  (forall a b c rest,
     data = a :: b :: c :: rest ->
     is_digit a = true -> is_digit b = true -> is_digit c = true ->
     parseInt10 (substr 0 3 data)
     = Int (100 * digit_value a + 10 * digit_value b + digit_value c)) /\
  (forall c rest,
     data = c :: rest ->
     is_white_space c = false -> is_digit c = false ->
     c <> 45 -> c <> 43 ->
     parseInt10 (substr 0 3 data) = NaN) /\
  (data = [] -> parseInt10 (substr 0 3 data) = NaN).
Proof.
  intros H. rewrite classified_success_test in H.
  split; [|split; [|split]].
  - simpl. unfold parse_reply. by rewrite H.
  - intros a b c rest -> Ha Hb Hc. by apply parseInt10_three_digits.
  - intros c rest -> Hw Hd Hm Hp. by apply parseInt10_no_digit.
  - by intros ->.
Qed.

Lemma C7_failure_payload_witness :
  call_disconnect_cb
    (ParseCont (Some 1%nat) (str "515 Bad authentication" ++ CRLF))
    (TorControl None)
  = Returned
      (emit_obs
         (CbCall 1
            (ArgsFailure (Error (str "515 Bad authentication" ++ CRLF))
               (mkFailure (Int 515) (str "Bad authentication" ++ CRLF)
                          (str "515 Bad authentication" ++ CRLF)))
            None) (TorControl None)).
Proof.
  exact (proj1 (C7_failure_payload 1%nat
                  (str "515 Bad authentication" ++ CRLF)
                  (TorControl None) eq_refl)).
Defined.

(* ===================================================================== *)
(** ** The machine                                                        *)
(* ===================================================================== *)

(** C10: [setPersistent(v)] stores [!!v] and nothing else changes;
    [isPersistent()] then returns that boolean. *)
Theorem C10_setPersistent_frame (v : value) (s : State) :
  step (Call_setPersistent v) s = Returned (setPersistent v s) /\
  persistent (opts (setPersistent v s)) = VBool (ToBoolean v) /\
  isPersistent (setPersistent v s) = ToBoolean v /\
  host (opts (setPersistent v s)) = host (opts s) /\
  port (opts (setPersistent v s)) = port (opts s) /\
  path (opts (setPersistent v s)) = path (opts s) /\
  password (opts (setPersistent v s)) = password (opts s) /\
  connection (setPersistent v s) = connection s /\
  sockets (setPersistent v s) = sockets s /\
  log (setPersistent v s) = log s.
Proof. repeat split. Qed.

(** C8: on an object whose connection is set, [connect] hands that
    socket to its callback at once; no socket is created, nothing is
    written, no listener is added, and the object is as before. *)
Theorem C8_connect_idempotent (s : State) (h : nat)
        (params : option Params) (cb : option nat) :
  connection s = Some h ->
  (exists s',
     step (Call_connect params cb) s = Returned s' /\
     opts s' = opts s /\
     connection s' = Some h /\
     sockets s' = sockets s /\
     next_listener s' = next_listener s /\
     log s' = log s ++ match cb with
                       | Some id => [CbCall id (ArgsConn (Some h)) (Some h)]
                       | None => []
                       end) /\
  (forall c,
     connect params (Some c) s = call_connect_cb c (inr (Some h)) s).
Proof.
  intros H. split.
  - simpl. unfold connect. rewrite H. destruct cb as [id|]; simpl.
    + unfold call_user. rewrite H. eexists. split; [reflexivity|]. by simpl.
    + exists s. by rewrite app_nil_r.
  - intros c. unfold connect. by rewrite H.
Qed.

Lemma C8_connect_idempotent_witness :
  exists s',
    step (Call_connect None (Some 7%nat))
         (state_of (step (Call_connect None None) (TorControl None)))
    = Returned s' /\
    opts s'
    = opts (state_of (step (Call_connect None None) (TorControl None))) /\
    connection s' = Some 0%nat /\
    sockets s'
    = sockets (state_of (step (Call_connect None None) (TorControl None))) /\
    next_listener s' = 3%nat /\
    log s' = [CbCall 7 (ArgsConn (Some 0%nat)) (Some 0%nat)].
Proof.
  exact (proj1 (C8_connect_idempotent
                  (state_of (step (Call_connect None None) (TorControl None)))
                  0%nat None (Some 7%nat) eq_refl)).
Defined.

(** *** The socket created last *)

Lemma alter_last {A} (f : A -> A) (l : list A) (x : A) :
  alter f (length l) (l ++ [x]) = l ++ [f x].
Proof.
  replace (length l) with (length l + 0)%nat by lia.
  by rewrite alter_app_r.
Qed.

Lemma lookup_last {A} (l : list A) (x : A) : (l ++ [x]) !! length l = Some x.
Proof. by rewrite list_lookup_middle. Qed.

Lemma add_listener_last o c l k n lg ev x :
  add_listener (length l) ev x (mkState o c (l ++ [k]) n lg)
  = mkState o c (l ++ [set_listeners ev (listeners ev k ++ [(n, x)]) k])
            (S n) lg.
Proof. unfold add_listener. simpl. by rewrite alter_last. Qed.

Lemma remove_listener_last o c l k n lg ev r :
  remove_listener (length l) ev r (mkState o c (l ++ [k]) n lg)
  = mkState o c
      (l ++ [set_listeners ev (filter (fun r' => r' <> r) (listeners ev k)) k])
      n lg.
Proof. unfold remove_listener, set_sockets. simpl. by rewrite alter_last. Qed.

Lemma socket_write_last o c l k n lg text :
  socket_write (length l) text (mkState o c (l ++ [k]) n lg)
  = mkState o c
      (l ++ [mkSocket (net_params k) (on_error k) (on_data k) (on_end k)
                      (written k ++ [text]) (end_called k)])
      n lg.
Proof. unfold socket_write, set_sockets. simpl. by rewrite alter_last. Qed.

Lemma emit_last o c l k n lg ev :
  emit (length l) ev (mkState o c (l ++ [k]) n lg)
  = match ev, listeners (name_of ev) k with
    | EvError err, [] => Thrown (Unhandled err) (mkState o c (l ++ [k]) n lg)
    | _, ls => run_listeners (length l) ev ls (mkState o c (l ++ [k]) n lg)
    end.
Proof. unfold emit. simpl. by rewrite lookup_last. Qed.

Lemma written_to_last o c l k n lg :
  written_to (length l) (mkState o c (l ++ [k]) n lg) = written k.
Proof. unfold written_to. simpl. by rewrite lookup_last. Qed.

(** [connect] on an object without a connection: one more socket, with
    its listeners, to which the password has been written. *)
Lemma connect_closed o l n lg params cb :
  connect params cb (mkState o None l n lg)
  = Returned
      (mkState o (Some (length l))
         (l ++ [mkSocket (resolve_params o params)
                  [(n, ConnErrL cb)]
                  ((S n, PipeData)
                   :: match cb with
                      | Some c => [(S (S (S n)), AuthL c)]
                      | None => []
                      end)
                  [(S (S n), PipeEnd)]
                  [authenticate_line
                     (effective_password o (resolve_params o params))]
                  false])
         (match cb with
          | Some _ => S (S (S (S n)))
          | None => S (S (S n))
          end) lg).
Proof.
  unfold connect, set_connection, set_sockets. simpl.
  rewrite !add_listener_last. simpl.
  destruct cb; rewrite ?add_listener_last, socket_write_last; reflexivity.
Qed.

Lemma effective_password_default (o : Opts) :
  effective_password o (resolve_params o None) = password o.
Proof. unfold effective_password. simpl. by destruct (password o). Qed.

(** The first chunk after [AUTHENTICATE]: forwarded, then examined by
    the listener of [connect], which is gone afterwards. *)
Lemma emit_data_awaiting_auth o conn l p errs a b c ends w e n lg d :
  emit (length l) (EvData d)
    (mkState o conn
       (l ++ [mkSocket p errs [(a, PipeData); (b, AuthL c)] ends w e]) n lg)
  = call_connect_cb c
      (if bool_decide (begins_250 d) then inr conn
       else inl (Error (str "Authentication failed with message: " ++ d)))
      (mkState o conn (l ++ [mkSocket p errs [(a, PipeData)] ends w e]) n
         (lg ++ [EmitData d])).
Proof.
  rewrite emit_last. simpl. unfold emit_obs. simpl.
  rewrite remove_listener_last. simpl.
  replace (filter (fun r' => r' <> (b, AuthL c))
             [(a, PipeData); (b, AuthL c)])
    with [(a, PipeData)] by (symmetry; remove_registration).
  unfold begins_250.
  destruct (bool_decide (substr 0 3 d = str "250"));
    by destruct (call_connect_cb c _ _).
Qed.

(** The first chunk after a command: forwarded, then handed to
    [tryDisconnect] by the listener of [sendCommand]. *)
Lemma emit_data_awaiting_reply o conn l p errs a b cb keep ends w e n lg d :
  emit (length l) (EvData d)
    (mkState o conn
       (l ++ [mkSocket p errs [(a, PipeData); (b, ReplyL cb keep)] ends w e])
       n lg)
  = tryDisconnect keep (ParseCont cb d)
      (mkState o conn (l ++ [mkSocket p errs [(a, PipeData)] ends w e]) n
         (lg ++ [EmitData d])).
Proof.
  rewrite emit_last. simpl. unfold emit_obs. simpl.
  rewrite remove_listener_last. simpl.
  replace (filter (fun r' => r' <> (b, ReplyL cb keep))
             [(a, PipeData); (b, ReplyL cb keep)])
    with [(a, PipeData)] by (symmetry; remove_registration).
  by destruct (tryDisconnect _ _ _).
Qed.

(** Any other chunk is only forwarded. *)
Lemma emit_data_idle o conn l p errs a ends w e n lg d :
  emit (length l) (EvData d)
    (mkState o conn (l ++ [mkSocket p errs [(a, PipeData)] ends w e]) n lg)
  = Returned
      (mkState o conn (l ++ [mkSocket p errs [(a, PipeData)] ends w e]) n
         (lg ++ [EmitData d])).
Proof. by rewrite emit_last. Qed.

(** ['error'] on a socket that [connect] has just made. *)
Lemma emit_error_connecting o conn l p a cb dats ends w e n lg err :
  emit (length l) (EvError err)
    (mkState o conn (l ++ [mkSocket p [(a, ConnErrL cb)] dats ends w e]) n lg)
  = match cb with
    | Some c =>
        call_connect_cb c
          (inl (Error (str "Error connecting to control port: " ++ err)))
    | None => Returned
    end (mkState o conn (l ++ [mkSocket p [] dats ends w e]) n lg).
Proof.
  rewrite emit_last. simpl.
  rewrite remove_listener_last. simpl.
  replace (filter (fun r' => r' <> (a, ConnErrL cb)) [(a, ConnErrL cb)])
    with (@nil (nat * listener)) by (symmetry; remove_registration).
  destruct cb as [c|]; [|done]. by destruct (call_connect_cb c _ _).
Qed.

(** ['end'] with no [disconnect] pending: the connection is dropped. *)
Lemma emit_end_idle o conn l p errs dats a w e n lg :
  emit (length l) EvEnd
    (mkState o conn (l ++ [mkSocket p errs dats [(a, PipeEnd)] w e]) n lg)
  = Returned
      (mkState o None (l ++ [mkSocket p errs dats [(a, PipeEnd)] w e]) n
         (lg ++ [EmitEnd])).
Proof. by rewrite emit_last. Qed.

(** ['end'] after [disconnect(callback)]: the connection is dropped,
    then the callback is called. *)
Lemma emit_end_disconnecting o conn l p errs dats a b c w e n lg :
  emit (length l) EvEnd
    (mkState o conn
       (l ++ [mkSocket p errs dats [(a, PipeEnd); (b, DisconnL c)] w e]) n lg)
  = call_disconnect_cb c
      (mkState o None (l ++ [mkSocket p errs dats [(a, PipeEnd)] w e]) n
         (lg ++ [EmitEnd])).
Proof.
  rewrite emit_last. simpl. unfold emit_obs, set_connection. simpl.
  rewrite remove_listener_last. simpl.
  replace (filter (fun r' => r' <> (b, DisconnL c))
             [(a, PipeEnd); (b, DisconnL c)])
    with [(a, PipeEnd)] by (symmetry; remove_registration).
  by destruct (call_disconnect_cb c _).
Qed.

(** *** Calls into the caller *)

Lemma calls_app (l1 l2 : list obs) : calls (l1 ++ l2) = calls l1 ++ calls l2.
Proof. unfold calls. apply omap_app. Qed.

Lemma calls_emitted_data (ds : list jsstring) : calls (map EmitData ds) = [].
Proof. by induction ds. Qed.

(** *** [tryDisconnect] *)

Lemma tryDisconnect_keep keep c s :
  ToBoolean keep || isPersistent s = true ->
  tryDisconnect keep c s = call_disconnect_cb c s.
Proof. unfold tryDisconnect. by intros ->. Qed.


Lemma tryDisconnect_quit keep c s h :
  ToBoolean keep || isPersistent s = false ->
  connection s = Some h ->
  tryDisconnect keep c s
  = Returned (socket_write h QUIT_line (add_listener h OnEnd (DisconnL c) s)).
Proof.
  unfold tryDisconnect, disconnect. intros -> Hc. rewrite Hc.
  by rewrite bool_decide_eq_false_2.
Qed.

(** *** A command on an object without a connection *)

Lemma sendCommand_closed o l n lg command cb keep :
  sendCommand command cb keep (mkState o None l n lg)
  = Returned
      (mkState o (Some (length l))
         (l ++ [mkSocket (resolve_params o None)
                  [(n, ConnErrL (Some (SendCont command cb keep)))]
                  [(S n, PipeData);
                   (S (S (S n)), AuthL (SendCont command cb keep))]
                  [(S (S n), PipeEnd)]
                  [authenticate_line (password o)]
                  false])
         (S (S (S (S n)))) lg).
Proof.
  unfold sendCommand. rewrite connect_closed.
  by rewrite effective_password_default.
Qed.

(** C9: a command without callback whose connection attempt fails (the
    socket reports an error, or the password is refused) ends in the
    type error of calling [undefined], and no function of the caller
    has been called; with a callback the same failure is passed to it. *)
Theorem C9_missing_callback (s : State) (command : jsstring) (keep : value)
        (cause : event) (e : error) :
  connection s = None ->
  connect_failure cause = Some e ->
  (exists s',
     run [Call_sendCommand command None keep;
          Socket_emits (length (sockets s)) cause] s
     = Thrown NotAFunction s' /\
     calls (log s') = calls (log s)) /\
  (forall id, exists s',
     run [Call_sendCommand command (Some id) keep;
          Socket_emits (length (sockets s)) cause] s
     = Returned s' /\
     calls (log s')
     = calls (log s) ++ [(id, ArgsErr e, Some (length (sockets s)))]).
Proof.
  destruct s as [o conn l n lg]. simpl. intros -> Hfail.
  split; [|intros id]; rewrite sendCommand_closed; simpl;
    (destruct cause as [err|d|]; simpl in Hfail; [| |done]).
  - injection Hfail as <-. rewrite emit_error_connecting. simpl.
    eexists. split; [reflexivity|]. done.
  - case_bool_decide as Hd; [done|]. injection Hfail as <-.
    rewrite emit_data_awaiting_auth. rewrite bool_decide_eq_false_2 by done.
    simpl. eexists. split; [reflexivity|]. simpl.
    by rewrite calls_app, app_nil_r.
  - injection Hfail as <-. rewrite emit_error_connecting. simpl.
    eexists. split; [reflexivity|]. simpl. by rewrite calls_app.
  - case_bool_decide as Hd; [done|]. injection Hfail as <-.
    rewrite emit_data_awaiting_auth. rewrite bool_decide_eq_false_2 by done.
    simpl. eexists. split; [reflexivity|]. simpl.
    by rewrite !calls_app, <- app_assoc.
Qed.

Lemma C9_missing_callback_witness :
  (exists s',
     run [Call_sendCommand (str "SIGNAL NEWNYM") None VUndefined;
          Socket_emits 0 (EvData bad_authentication)] (TorControl None)
     = Thrown NotAFunction s' /\
     calls (log s') = []) /\
  (forall id, exists s',
     run [Call_sendCommand (str "SIGNAL NEWNYM") (Some id) VUndefined;
          Socket_emits 0 (EvData bad_authentication)] (TorControl None)
     = Returned s' /\
     calls (log s')
     = [(id,
         ArgsErr (Error (str "Authentication failed with message: "
                         ++ bad_authentication)),
         Some 0%nat)]).
Proof.
  exact (C9_missing_callback (TorControl None) (str "SIGNAL NEWNYM")
           VUndefined (EvData bad_authentication) _ eq_refl eq_refl).
Defined.

(** C6, as stated, fails: after a refused password the socket stays
    installed, and the next command is written to it although no chunk
    beginning with [250] has ever arrived. *)
Lemma C6_counterexample :
  never_authenticated failed_send_then_send /\
  written_to 0 (state_of (run failed_send_then_send (TorControl None)))
  = [authenticate_line []; str "GETINFO version" ++ CRLF].
Proof.
  split; [|reflexivity].
  unfold never_authenticated, failed_send_then_send.
  repeat constructor. unfold begins_250. vm_compute. discriminate.
Qed.

(** C6, amended: on an object without a connection, [sendCommand]
    writes the password line only; the command follows when the first
    chunk begins with [250]; if the socket reports an error or the first
    chunk begins otherwise, the command is not written and the failure
    is passed to the callback of the command.  On an object whose
    connection is set, the handshake is not run: the command is written
    at once to that socket. *)
Theorem C6_command_after_authentication (s : State) (command : jsstring)
        (cb : option nat) (keep : value) :
  (connection s = None ->
   exists s1,
     sendCommand command cb keep s = Returned s1 /\
     connection s1 = Some (length (sockets s)) /\
     written_to (length (sockets s)) s1
     = [authenticate_line (password (opts s))] /\
     (forall cause e,
        connect_failure cause = Some e ->
        written_to (length (sockets s))
          (state_of (emit (length (sockets s)) cause s1))
        = [authenticate_line (password (opts s))] /\
        (forall id,
           cb = Some id ->
           exists s2,
             emit (length (sockets s)) cause s1 = Returned s2 /\
             calls (log s2)
             = calls (log s) ++ [(id, ArgsErr e, Some (length (sockets s)))]))
     /\
     (forall d,
        begins_250 d ->
        exists s2,
          emit (length (sockets s)) (EvData d) s1 = Returned s2 /\
          written_to (length (sockets s)) s2
          = [authenticate_line (password (opts s)); command ++ CRLF] /\
          calls (log s2) = calls (log s))) /\
  (forall h,
     connection s = Some h ->
     sendCommand command cb keep s
     = Returned
         (socket_write h (command ++ CRLF)
            (add_listener h OnData (ReplyL cb keep) s))).
Proof.
  split.
  - destruct s as [o conn l n lg]. simpl. intros ->.
    rewrite sendCommand_closed. eexists. split; [reflexivity|].
    split; [done|]. split; [by rewrite written_to_last|]. split.
    + intros cause e Hfail.
      destruct cause as [err|d|]; simpl in Hfail; [| |done].
      * injection Hfail as <-. rewrite emit_error_connecting. simpl.
        split.
        { destruct cb; simpl; unfold emit_obs; simpl;
            by rewrite written_to_last. }
        intros id ->. simpl. eexists. split; [reflexivity|].
        simpl. by rewrite calls_app.
      * case_bool_decide as Hd; [done|]. injection Hfail as <-.
        rewrite emit_data_awaiting_auth.
        rewrite bool_decide_eq_false_2 by done. simpl. split.
        { destruct cb; simpl; unfold emit_obs; simpl;
            by rewrite written_to_last. }
        intros id ->. simpl. eexists. split; [reflexivity|].
        simpl. by rewrite !calls_app, <- app_assoc.
    + intros d Hd. rewrite emit_data_awaiting_auth.
      rewrite bool_decide_eq_true_2 by done. simpl.
      rewrite add_listener_last, socket_write_last. simpl.
      eexists. split; [reflexivity|]. split; [by rewrite written_to_last|].
      simpl. by rewrite calls_app, app_nil_r.
  - intros h Hc. unfold sendCommand, connect. by rewrite Hc.
Qed.

Lemma C6_command_after_authentication_witness :
  exists s1,
    sendCommand (str "GETINFO version") (Some 1%nat) VUndefined
                (TorControl None) = Returned s1 /\
    connection s1 = Some 0%nat /\
    written_to 0 s1 = [authenticate_line []].
Proof.
  destruct (proj1 (C6_command_after_authentication
                     (TorControl None) (str "GETINFO version")
                     (Some 1%nat) VUndefined) eq_refl)
    as (s1 & H1 & H2 & H3 & _).
  exists s1. exact (conj H1 (conj H2 H3)).
Defined.

(** C3, as stated, fails: after the reply [515 Bad authentication] the
    callback has received the failure, yet the socket is still
    installed, and a command issued next is written to that same socket
    instead of opening a new one. *)
Lemma C3_counterexample :
  calls (log (state_of (run failed_open (TorControl None))))
  = [(1%nat,
      ArgsErr (Error (str "Authentication failed with message: "
                      ++ bad_authentication)),
      Some 0%nat)] /\
  connection (state_of (run failed_open (TorControl None))) = Some 0%nat /\
  length (sockets (state_of (run failed_send_then_send (TorControl None))))
  = 1%nat /\
  written_to 0 (state_of (run failed_send_then_send (TorControl None)))
  = [authenticate_line []; str "GETINFO version" ++ CRLF].
Proof. repeat split. Qed.

(** C3, amended: when the first chunk after [AUTHENTICATE] does not
    begin with [250], the callback of [connect] receives the
    authentication failure, and the socket stays installed as the
    connection; it is the ['end'] of that socket that clears the
    connection, and a command issued after it opens a new socket and
    starts with the password line. *)
Theorem C3_failed_authentication (s : State) (params : option Params)
        (id : nat) (d : jsstring) :
  connection s = None ->
  ~ begins_250 d ->
  exists s1 s2 s3,
    step (Call_connect params (Some id)) s = Returned s1 /\
    emit (length (sockets s)) (EvData d) s1 = Returned s2 /\
    calls (log s2)
    = calls (log s)
      ++ [(id,
           ArgsErr (Error (str "Authentication failed with message: " ++ d)),
           Some (length (sockets s)))] /\
    connection s2 = Some (length (sockets s)) /\
    emit (length (sockets s)) EvEnd s2 = Returned s3 /\
    connection s3 = None /\
    (forall command cb keep,
       exists s4,
         sendCommand command cb keep s3 = Returned s4 /\
         connection s4 = Some (S (length (sockets s))) /\
         written_to (S (length (sockets s))) s4
         = [authenticate_line (password (opts s))]).
Proof.
  destruct s as [o conn l n lg]. simpl. intros -> Hd.
  rewrite connect_closed. eexists _, _, _. split; [reflexivity|].
  rewrite emit_data_awaiting_auth. rewrite bool_decide_eq_false_2 by done.
  simpl. unfold call_user, emit_obs. simpl.
  split; [reflexivity|]. simpl.
  split; [by rewrite !calls_app, <- app_assoc|]. split; [done|].
  rewrite emit_end_idle. split; [reflexivity|]. split; [done|].
  intros command cb keep. rewrite sendCommand_closed.
  eexists. split; [reflexivity|]. simpl.
  rewrite length_app. simpl. rewrite Nat.add_1_r. split; [done|].
  match goal with
  | |- written_to _ (mkState _ _ (?l' ++ _) _ _) = _ =>
      replace (S (length l)) with (length l')
        by (rewrite length_app; simpl; lia)
  end.
  by rewrite written_to_last.
Qed.

Lemma C3_failed_authentication_witness :
  exists s2,
    run failed_open (TorControl None) = Returned s2 /\
    connection s2 = Some 0%nat.
Proof.
  destruct (C3_failed_authentication (TorControl None) None 1%nat
              bad_authentication eq_refl)
    as (s1 & s2 & s3 & H1 & H2 & H3 & H4 & _).
  - unfold begins_250. vm_compute. discriminate.
  - exists s2. split; [|exact H4].
    unfold failed_open, run, and_then. rewrite H1. cbn [step].
    change (length (sockets (TorControl None))) with 0%nat in H2.
    by rewrite H2.
Defined.

(** *** One command from the password to the end of the stream *)

Lemma TorControl_closed (o : option UserOpts) :
  TorControl o = mkState (opts (TorControl o)) None [] 0 [].
Proof.
  unfold TorControl. destruct (default empty_object o) as [h p [pa|] pw pe];
    reflexivity.
Qed.

Lemma run_cons i inputs s :
  run (i :: inputs) s = and_then (step i s) (run inputs).
Proof. reflexivity. Qed.

(** Chunks on a socket with no pending listener are forwarded only. *)
Lemma run_data_idle o conn l p errs a ends w e n ds tail : forall lg,
  run (data_events (length l) ds ++ tail)
      (mkState o conn (l ++ [mkSocket p errs [(a, PipeData)] ends w e]) n lg)
  = run tail
      (mkState o conn (l ++ [mkSocket p errs [(a, PipeData)] ends w e]) n
         (lg ++ map EmitData ds)).
Proof.
  induction ds as [|d ds IH]; intros lg.
  - simpl. by rewrite app_nil_r.
  - change (data_events (length l) (d :: ds) ++ tail)
      with (Socket_emits (length l) (EvData d)
            :: (data_events (length l) ds ++ tail)).
    rewrite run_cons. cbn [step]. rewrite emit_data_idle. cbn [and_then].
    rewrite IH. by rewrite <- app_assoc.
Qed.

(** Whatever the chunks that follow, the callback of the command is
    called once, with the parse of the first chunk: at once when the
    connection is kept, at the end of the stream otherwise. *)
Lemma run_command o l n lg command id keep ok c rest :
  begins_250 ok ->
  exists s',
    run (Call_sendCommand command (Some id) keep
         :: Socket_emits (length l) (EvData ok)
         :: data_events (length l) (c :: rest)
            ++ [Socket_emits (length l) EvEnd])
        (mkState o None l n lg)
    = Returned s' /\
    connection s' = None /\
    calls (log s')
    = calls lg
      ++ [(id, parse_reply c,
           if ToBoolean keep || ToBoolean (persistent o)
           then Some (length l) else None)] /\
    written_to (length l) s'
    = [authenticate_line (password o); command ++ CRLF]
      ++ (if ToBoolean keep || ToBoolean (persistent o) then []
          else [QUIT_line]).
Proof.
  intros Hok.
  rewrite run_cons. cbn [step]. rewrite sendCommand_closed. cbn [and_then].
  rewrite run_cons. cbn [step]. rewrite emit_data_awaiting_auth.
  rewrite bool_decide_eq_true_2 by done. cbn [call_connect_cb].
  rewrite add_listener_last, socket_write_last. cbn [and_then].
  cbn [listeners set_listeners net_params on_error on_data on_end written
       end_called app].
  change (data_events (length l) (c :: rest)
          ++ [Socket_emits (length l) EvEnd])
    with (Socket_emits (length l) (EvData c)
          :: (data_events (length l) rest
              ++ [Socket_emits (length l) EvEnd])).
  rewrite run_cons. cbn [step]. rewrite emit_data_awaiting_reply.
  destruct (ToBoolean keep || ToBoolean (persistent o)) eqn:Hkeep.
  - rewrite tryDisconnect_keep by done.
    cbn [call_disconnect_cb and_then]. unfold call_user, emit_obs.
    cbn [and_then opts connection sockets next_listener log].
    rewrite run_data_idle. rewrite run_cons. cbn [step].
    rewrite emit_end_idle. cbn [and_then run].
    eexists. split; [reflexivity|]. split; [done|].
    split; [|by rewrite written_to_last].
    cbn [log]. rewrite !calls_app, calls_emitted_data.
    simpl. by rewrite !app_nil_r.
  - rewrite (tryDisconnect_quit _ _ _ (length l)) by done.
    rewrite add_listener_last, socket_write_last. cbn [and_then].
    cbn [listeners set_listeners net_params on_error on_data on_end written
         end_called app].
    rewrite run_data_idle. rewrite run_cons. cbn [step].
    rewrite emit_end_disconnecting.
    cbn [call_disconnect_cb]. unfold call_user, emit_obs.
    cbn [and_then run opts connection sockets next_listener log].
    eexists. split; [reflexivity|]. split; [done|].
    split; [|by rewrite written_to_last].
    cbn [log]. rewrite !calls_app, calls_emitted_data.
    simpl. by rewrite !app_nil_r.
Qed.

(** C4, as stated, fails: the same bytes give a success in one chunk
    and an error in two. *)
Lemma C4_counterexample :
  concat [str "250-version=0.4.8" ++ CRLF; str "250 OK" ++ CRLF]
  = concat [str "250-version=0.4.8" ++ CRLF ++ str "250 OK" ++ CRLF] /\
  delivered None (str "GETINFO version") VUndefined
    [str "250-version=0.4.8" ++ CRLF ++ str "250 OK" ++ CRLF]
  = [ArgsReply
       (mkReply (Int 250) [str "version=0.4.8"; str "OK"]
          (str "250-version=0.4.8" ++ CRLF ++ str "250 OK" ++ CRLF))] /\
  delivered None (str "GETINFO version") VUndefined
    [str "250-version=0.4.8" ++ CRLF; str "250 OK" ++ CRLF]
  = [ArgsFailure (Error (str "250-version=0.4.8" ++ CRLF))
       (mkFailure (Int 250) (str "version=0.4.8" ++ CRLF)
          (str "250-version=0.4.8" ++ CRLF))] /\
  ~ fragmentation_independent.
Proof.
  split; [reflexivity|]. split; [reflexivity|]. split; [reflexivity|].
  intros H.
  specialize (H None (str "GETINFO version") VUndefined
                [str "250-version=0.4.8" ++ CRLF; str "250 OK" ++ CRLF]
                [str "250-version=0.4.8" ++ CRLF ++ str "250 OK" ++ CRLF]
                eq_refl).
  vm_compute in H. discriminate.
Qed.

(** C4, amended: nothing is buffered; the result delivered for a
    command is the parse of the first chunk that arrives after the
    command was written, whatever chunks follow it. *)
Theorem C4_first_chunk_is_the_reply (o : option UserOpts)
        (command : jsstring) (keep : value) (c : jsstring)
        (rest : list jsstring) :
  delivered o command keep (c :: rest) = [parse_reply c].
Proof.
  unfold delivered, dispatch. rewrite TorControl_closed.
  destruct (run_command (opts (TorControl o)) [] 0 [] command 1 keep
              (str "250 OK" ++ CRLF) c rest eq_refl)
    as (s' & Hrun & _ & Hcalls & _).
  cbn [length] in Hrun. rewrite Hrun. cbn [state_of].
  rewrite Hcalls. reflexivity.
Qed.

(** *** The invariant *)

Lemma wf_alter (s s' : State) (f : Socket -> Socket) (h : nat) :
  wf s ->
  connection s' = connection s ->
  sockets s' = alter f h (sockets s) ->
  (forall k, end_listeners_ok k -> end_listeners_ok (f k)) ->
  wf s'.
Proof.
  intros [Hs Hc] Ec Es Hf. unfold wf. rewrite Ec, Es, length_alter.
  split; [|done]. apply Forall_alter; [done|]. intros k _. apply Hf.
Qed.

Lemma wf_same_sockets (s s' : State) :
  wf s ->
  sockets s' = sockets s ->
  connection s' = connection s \/ connection s' = None ->
  wf s'.
Proof.
  intros [Hs Hc] Es [Ec|Ec]; unfold wf; rewrite Es, Ec; done.
Qed.

Lemma wf_add_listener h ev x s :
  wf s ->
  (ev = OnEnd -> exists c, x = DisconnL c) ->
  wf (add_listener h ev x s).
Proof.
  intros Hwf Hx. eapply wf_alter; [done|reflexivity|reflexivity|].
  intros k Hk. unfold end_listeners_ok in *.
  destruct ev; simpl; try done.
  destruct (Hx eq_refl) as [c ->].
  destruct (on_end k) as [|[a [| | | | |]] ls]; simpl; try done.
  apply Forall_app. split; [done|]. by repeat constructor.
Qed.

Lemma wf_remove_listener h ev r s :
  wf s -> is_once r.2 = true -> wf (remove_listener h ev r s).
Proof.
  intros Hwf Hr. eapply wf_alter; [done|reflexivity|reflexivity|].
  intros k Hk. unfold end_listeners_ok in *.
  destruct ev; simpl; try done.
  destruct (on_end k) as [|[a [| | | | |]] ls]; simpl; try done.
  rewrite filter_cons. case_decide as Hne.
  - apply Forall_forall. intros y Hy. apply list_elem_of_filter in Hy as [_ Hy].
    revert y Hy. by apply Forall_forall.
  - destruct r as [b x]. simpl in Hr. injection Hne as _ <-. discriminate.
Qed.

Lemma wf_socket_write h text s : wf s -> wf (socket_write h text s).
Proof.
  intros Hwf. eapply wf_alter; [done|reflexivity|reflexivity|]. by intros k.
Qed.

Lemma wf_socket_end h s : wf s -> wf (socket_end h s).
Proof.
  intros Hwf. eapply wf_alter; [done|reflexivity|reflexivity|]. by intros k.
Qed.

Lemma wf_emit_obs o s : wf s -> wf (emit_obs o s).
Proof. intros Hwf. eapply wf_same_sockets; [done|done|by left]. Qed.

Lemma wf_and_then (o : outcome) (k : State -> outcome) :
  wf (state_of o) ->
  (forall s, wf s -> wf (state_of (k s))) ->
  wf (state_of (and_then o k)).
Proof. destruct o as [s|e s]; simpl; auto. Qed.

Lemma wf_call_user id args s : wf s -> wf (state_of (call_user id args s)).
Proof. apply wf_emit_obs. Qed.

Lemma wf_call_disconnect_cb c s :
  wf s -> wf (state_of (call_disconnect_cb c s)).
Proof.
  intros Hwf. destruct c as [id|[id|] data]; simpl; try done;
    by apply wf_emit_obs.
Qed.

Lemma wf_disconnect cb force s :
  wf s -> wf (state_of (disconnect cb force s)).
Proof.
  intros Hwf. unfold disconnect. destruct (connection s) as [h|] eqn:Hc.
  - assert (wf match cb with
               | Some c => add_listener h OnEnd (DisconnL c) s
               | None => s
               end) as Hwf'.
    { destruct cb as [c|]; [|done]. apply wf_add_listener; eauto. }
    destruct (ToBoolean force); simpl.
    + by apply wf_socket_end.
    + by apply wf_socket_write.
  - destruct cb as [c|]; [|done]. by apply wf_call_disconnect_cb.
Qed.

Lemma wf_tryDisconnect keep c s :
  wf s -> wf (state_of (tryDisconnect keep c s)).
Proof.
  intros Hwf. unfold tryDisconnect.
  destruct (_ || _); [by apply wf_call_disconnect_cb | by apply wf_disconnect].
Qed.

Lemma wf_call_connect_cb c r s :
  wf s -> wf (state_of (call_connect_cb c r s)).
Proof.
  intros Hwf. destruct c as [id|command cb keep]; simpl.
  - destruct r; by apply wf_emit_obs.
  - destruct r as [e|[h|]]; simpl; try done.
    + destruct cb; simpl; [by apply wf_emit_obs | done].
    + apply wf_socket_write, wf_add_listener; [done|discriminate].
Qed.

Lemma wf_connect params cb s : wf s -> wf (state_of (connect params cb s)).
Proof.
  intros Hwf. destruct s as [o [h|] l n lg].
  - unfold connect. simpl. destruct cb as [c|]; [|done].
    by apply wf_call_connect_cb.
  - rewrite connect_closed. simpl. destruct Hwf as [Hs _]. split; simpl.
    + apply Forall_app. split; [done|]. repeat constructor.
    + rewrite length_app. simpl. lia.
Qed.

Lemma wf_run_listener x ev s :
  wf s -> wf (state_of (run_listener x ev s)).
Proof.
  intros Hwf. destruct x as [[c|]| | |c|cb keep|c], ev as [err|d|];
    cbn [run_listener state_of]; try done.
  - by apply wf_call_connect_cb.
  - apply wf_emit_obs. eapply wf_same_sockets; [done|done|by right].
  - destruct (bool_decide _); by apply wf_call_connect_cb.
  - by apply wf_tryDisconnect.
  - by apply wf_call_disconnect_cb.
Qed.

Lemma wf_run_listeners h ev ls : forall s,
  wf s -> wf (state_of (run_listeners h ev ls s)).
Proof.
  induction ls as [|[a x] ls IH]; intros s Hwf; [done|].
  simpl. apply wf_and_then; [|done]. apply wf_run_listener.
  destruct (is_once x) eqn:Hx; [|done]. by apply wf_remove_listener.
Qed.

Lemma wf_emit h ev s : wf s -> wf (state_of (emit h ev s)).
Proof.
  intros Hwf. unfold emit. destruct (sockets s !! h) as [k|]; [|done].
  destruct ev as [err|d|]; try by apply wf_run_listeners.
  destruct (listeners _ k) eqn:Hl; [done|].
  rewrite <- Hl. by apply wf_run_listeners.
Qed.

Lemma wf_step i s : wf s -> wf (state_of (step i s)).
Proof.
  intros Hwf. destruct i; simpl.
  - by apply wf_connect.
  - by apply wf_connect.
  - by apply wf_disconnect.
  - eapply wf_same_sockets; [done|done|by left].
  - by apply wf_emit.
Qed.

Lemma wf_TorControl o : wf (TorControl o).
Proof. rewrite TorControl_closed. by split. Qed.

(** The invariant holds in every state the machine reaches. *)
Lemma wf_run inputs : forall s, wf s -> wf (state_of (run inputs s)).
Proof.
  induction inputs as [|i inputs IH]; intros s Hwf; [done|].
  simpl. apply wf_and_then; [by apply wf_step | done].
Qed.

(** *** The end of the stream *)




(* ===================================================================== *)
(** ** More on the parser                                                 *)
(* ===================================================================== *)

Lemma split_lines_LF (s : jsstring) :
  split_lines (LF :: s) = [] :: split_lines s.
Proof. reflexivity. Qed.

Lemma split_lines_CRLF (s : jsstring) :
  split_lines (CR :: LF :: s) = [] :: split_lines s.
Proof. reflexivity. Qed.

(** A character that starts no line break goes to the first piece. *)
Lemma split_lines_other (c : N) (s : jsstring) :
  c <> LF ->
  (c = CR -> head s <> Some LF) ->
  exists l ls,
    split_lines s = l :: ls /\ split_lines (c :: s) = (c :: l) :: ls.
Proof.
  intros Hc Hcr. cbn [split_lines].
  destruct (N.eqb_spec c LF) as [?|_]; [done|].
  destruct s as [|d s'].
  - by exists [], [].
  - assert ((c =? CR) && (d =? LF) = false) as ->.
    { destruct (N.eqb_spec c CR) as [Hc'|_]; [|done].
      destruct (N.eqb_spec d LF) as [->|_]; [|done].
      by destruct (Hcr Hc'). }
    destruct (split_lines (d :: s')) as [|l ls] eqn:E.
    + exfalso. revert E. cbn [split_lines].
      destruct (d =? LF); [done|]. destruct s' as [|e s'']; [done|].
      destruct ((d =? CR) && (e =? LF)); [done|].
      by destruct (split_lines (e :: s'')).
    + by exists l, ls.
Qed.

(** The three cases of [split_lines] as an induction principle. *)
Lemma split_lines_cases (P : jsstring -> Prop) :
  P [] ->
  (forall s, P s -> P (LF :: s)) ->
  (forall s, P s -> P (CR :: LF :: s)) ->
  (forall c s, c <> LF -> (c = CR -> head s <> Some LF) -> P s -> P (c :: s)) ->
  forall s, P s.
Proof.
  intros Hnil Hlf Hcrlf Hother s.
  assert (forall n (t : jsstring), (length t <= n)%nat -> P t) as H.
  { induction n as [|n IH]; intros t Ht.
    - destruct t; [done|simpl in Ht; lia].
    - destruct t as [|c t]; [done|]. simpl in Ht.
      destruct (decide (c = LF)) as [->|Hc].
      { apply Hlf, IH. lia. }
      destruct (decide (c = CR /\ head t = Some LF)) as [[-> Hh]|Hn].
      { destruct t as [|d t]; [done|]. injection Hh as ->.
        apply Hcrlf, IH. simpl in Ht. lia. }
      apply Hother; [done|naive_solver|apply IH; lia]. }
  by apply (H (length s)).
Qed.

(** No line contains LF. *)
Lemma split_lines_no_LF (s : jsstring) :
  Forall (fun line => LF ∉ line) (split_lines s).
Proof.
  induction s as [|s IH|s IH|c s Hc Hcr IH] using split_lines_cases.
  - repeat constructor. by intros ?%elem_of_nil.
  - rewrite split_lines_LF. constructor; [|done]. by intros ?%elem_of_nil.
  - rewrite split_lines_CRLF. constructor; [|done]. by intros ?%elem_of_nil.
  - destruct (split_lines_other c s Hc Hcr) as (l & ls & E & ->).
    rewrite E in IH. apply Forall_cons in IH as [Hl Hls].
    constructor; [|done]. intros [?|?]%elem_of_cons; done.
Qed.

(** When every line is empty, the text is made of line breaks. *)
Lemma split_lines_all_empty (s : jsstring) :
  filter nonempty (split_lines s) = [] -> Forall is_break s.
Proof.
  induction s as [|s IH|s IH|c s Hc Hcr IH] using split_lines_cases.
  - by constructor.
  - rewrite split_lines_LF, filter_cons. case_decide; [done|].
    intros H'. constructor; [by left | by apply IH].
  - rewrite split_lines_CRLF, filter_cons. case_decide; [done|].
    intros H'. constructor; [by right|]. constructor; [by left | by apply IH].
  - destruct (split_lines_other c s Hc Hcr) as (l & ls & _ & ->).
    rewrite filter_cons. case_decide as Hne; [done|].
    by destruct Hne.
Qed.

(** Lines sent one by one come back one by one, followed by the empty
    piece after the last line break. *)
Lemma split_lines_wire (lines : list jsstring) :
  Forall one_line lines ->
  split_lines (wire lines) = lines ++ [[]].
Proof.
  induction lines as [|line lines IH]; intros Hl; [done|].
  apply Forall_cons in Hl as [Hline Hl]. specialize (IH Hl).
  unfold wire in *. cbn [map concat]. rewrite <- app_assoc.
  induction Hline as [|c line Hc Hline IHl].
  - change ([] ++ CRLF ++ ?t) with (CR :: LF :: t).
    by rewrite split_lines_CRLF, IH.
  - cbn [app].
    destruct (split_lines_other c
                (line ++ CRLF ++ concat (map (fun l => l ++ CRLF) lines)))
      as (l & ls & E & ->).
    + intros ->. apply Hc. by left.
    + intros ->. exfalso. apply Hc. by right.
    + rewrite IHl in E. by injection E as <- <-.
Qed.

Lemma wire_app (l1 l2 : list jsstring) : wire (l1 ++ l2) = wire l1 ++ wire l2.
Proof. unfold wire. by rewrite map_app, concat_app. Qed.

(** X1: a reply handed over as a success has at least one message, so
    [messages[0]] is always there. *)
Theorem success_has_message (data : jsstring) :
  classified_success data = true ->
  exists r m ms, parse_reply data = ArgsReply r /\ r_messages r = m :: ms.
Proof.
  intros H. rewrite classified_success_test in H.
  unfold parse_reply. rewrite H, collect_spec. cbn [app].
  apply test_250_OK_true in H as (pre & nl & post & _ & ->).
  destruct (filter nonempty (split_lines (pre ++ str "250 OK" ++ nl ++ post)))
    as [|m ms] eqn:E.
  - apply split_lines_all_empty in E.
    apply Forall_app in E as [_ E]. apply Forall_cons in E as [[E|E] _];
      discriminate E.
  - eexists _, _, _. split; reflexivity.
Qed.

Lemma success_has_message_witness :
  exists r m ms,
    parse_reply (str "250 OK" ++ CRLF) = ArgsReply r /\
    r_messages r = m :: ms.
Proof. exact (success_has_message (str "250 OK" ++ CRLF) eq_refl). Defined.

(** X2: no message of a success contains a line feed. *)
Theorem messages_are_single_lines (data : jsstring) (r : Reply)
        (m : jsstring) :
  parse_reply data = ArgsReply r ->
  m ∈ r_messages r ->
  LF ∉ m.
Proof.
  unfold parse_reply. destruct (test_250_OK data); [|done].
  intros [= <-]. cbn [r_messages]. rewrite collect_spec. cbn [app].
  intros (line & -> & Hline)%list_elem_of_fmap.
  apply list_elem_of_filter in Hline as [_ Hline].
  pose proof (split_lines_no_LF data) as Hall.
  rewrite Forall_forall in Hall. specialize (Hall line Hline).
  unfold strip_250, substr_from. destruct (test_250_dot line); [|done].
  intros Hin. apply Hall. revert Hin. apply subseteq_drop.
Qed.

Lemma messages_are_single_lines_witness : LF ∉ str "OK".
Proof.
  apply (messages_are_single_lines (str "250 OK" ++ CRLF)
           (mkReply (Int 250) [str "OK"] (str "250 OK" ++ CRLF)) (str "OK")
           eq_refl).
  by apply list_elem_of_singleton.
Defined.

(** X3: a reply made of lines without CR or LF, each followed by CR LF,
    one of them [250 OK], is a success, and its messages are its
    non-empty lines, each without its [250x] prefix if it has one. *)
Theorem well_formed_reply_parsed (lines : list jsstring) :
  Forall one_line lines ->
  str "250 OK" ∈ lines ->
  parse_reply (wire lines)
  = ArgsReply
      (mkReply (Int 250) (map strip_250 (filter nonempty lines))
               (wire lines)).
Proof.
  intros Hlines Hok.
  assert (test_250_OK (wire lines) = true) as Htest.
  { apply list_elem_of_split in Hok as (l1 & l2 & ->).
    apply test_250_OK_true. exists (wire l1), CRLF, (wire l2).
    split; [by right|]. rewrite wire_app. unfold wire at 2.
    cbn [map concat]. by rewrite <- !app_assoc. }
  unfold parse_reply. rewrite Htest, collect_spec.
  rewrite split_lines_wire by done. rewrite filter_app.
  rewrite (filter_cons _ []). case_decide as Hne; [done|].
  rewrite filter_nil, app_nil_r. reflexivity.
Qed.

Lemma one_line_check (line : jsstring) :
  forallb (fun c => negb ((c =? LF) || (c =? CR))) line = true ->
  one_line line.
Proof.
  intros H. apply Forall_forall. intros c Hc%list_elem_of_In.
  rewrite forallb_forall in H. specialize (H c Hc).
  apply negb_true_iff, orb_false_iff in H as [H1 H2].
  apply N.eqb_neq in H1, H2. by intros [?|?].
Qed.

Lemma well_formed_reply_parsed_witness :
  parse_reply (wire [str "250-version=0.4.8"; str "250 OK"])
  = ArgsReply
      (mkReply (Int 250) [str "version=0.4.8"; str "OK"]
               (wire [str "250-version=0.4.8"; str "250 OK"])).
Proof.
  apply (well_formed_reply_parsed [str "250-version=0.4.8"; str "250 OK"]).
  - constructor; [by apply one_line_check|].
    constructor; [by apply one_line_check|]. constructor.
  - apply elem_of_cons. right. apply elem_of_cons. by left.
Defined.

Lemma trim_start_length (s : jsstring) :
  (length (trim_start s) <= length s)%nat.
Proof.
  induction s as [|c s IH]; [done|]. simpl.
  destruct (is_white_space c); simpl; lia.
Qed.

Lemma digits_prefix_length (s : jsstring) :
  (length (digits_prefix s) <= length s)%nat.
Proof.
  induction s as [|c s IH]; [done|]. simpl.
  destruct (is_digit c); simpl; lia.
Qed.

Lemma digits_prefix_digits (s : jsstring) :
  Forall (fun c => is_digit c = true) (digits_prefix s).
Proof.
  induction s as [|c s IH]; [constructor|]. simpl.
  destruct (is_digit c) eqn:E; by constructor.
Qed.

Lemma digit_value_range (c : N) :
  is_digit c = true -> (0 <= digit_value c <= 9)%Z.
Proof. rewrite is_digit_range. unfold digit_value. lia. Qed.

Lemma fold_digits_range (ds : list N) : forall acc : Z,
  Forall (fun c => is_digit c = true) ds ->
  (0 <= acc)%Z ->
  (acc * 10 ^ Z.of_nat (length ds)
   <= fold_left (fun acc c => 10 * acc + digit_value c) ds acc
   < (acc + 1) * 10 ^ Z.of_nat (length ds))%Z.
Proof.
  induction ds as [|c ds IH]; intros acc Hds Hacc.
  - simpl. lia.
  - apply Forall_cons in Hds as [Hc Hds].
    apply digit_value_range in Hc.
    cbn [fold_left length]. rewrite Nat2Z.inj_succ, Z.pow_succ_r by lia.
    specialize (IH (10 * acc + digit_value c)%Z Hds ltac:(lia)).
    assert (0 < 10 ^ Z.of_nat (length ds))%Z by (apply Z.pow_pos_nonneg; lia).
    nia.
Qed.

(** A text of [n] characters at most reads as less than [10^n]. *)
Lemma decimal_value_range (s : jsstring) (n : nat) :
  (length s <= n)%nat ->
  (0 <= decimal_value (digits_prefix s) < 10 ^ Z.of_nat n)%Z.
Proof.
  intros Hn.
  pose proof (fold_digits_range (digits_prefix s) 0 (digits_prefix_digits s)
                ltac:(lia)) as H.
  pose proof (digits_prefix_length s) as Hl.
  assert (10 ^ Z.of_nat (length (digits_prefix s)) <= 10 ^ Z.of_nat n)%Z
    by (apply Z.pow_le_mono_r; lia).
  unfold decimal_value. lia.
Qed.

Lemma parseInt10_range (s : jsstring) :
  (length s <= 3)%nat -> three_character_number (parseInt10 s).
Proof.
  intros Hs. unfold parseInt10.
  pose proof (trim_start_length s) as Ht.
  destruct (trim_start s) as [|c t]; [done|]. simpl in Ht.
  destruct (c =? 45).
  - pose proof (decimal_value_range t 2 ltac:(lia)) as Hv.
    destruct (digits_prefix t) as [|d ds]; [done|].
    destruct (Z.eqb_spec (decimal_value (d :: ds)) 0); [done|].
    simpl. lia.
  - destruct (c =? 43).
    + pose proof (decimal_value_range t 2 ltac:(lia)) as Hv.
      destruct (digits_prefix t) as [|d ds]; [done|]. simpl. lia.
    + pose proof (decimal_value_range (c :: t) 3 ltac:(simpl; lia)) as Hv.
      destruct (digits_prefix (c :: t)) as [|d ds]; [done|]. simpl. lia.
Qed.

(** X4: the code of a failure is NaN, minus zero or an integer from -99
    to 999, whatever the reply. *)
Theorem failure_code_range (data : jsstring) (e : error) (f : Failure) :
  parse_reply data = ArgsFailure e f ->
  three_character_number (f_code f).
Proof.
  unfold parse_reply. destruct (test_250_OK data); [done|].
  intros [= _ <-]. cbn [f_code]. apply parseInt10_range.
  unfold substr. rewrite length_take. lia.
Qed.

Lemma failure_code_range_witness : three_character_number (Int 515).
Proof.
  exact (failure_code_range bad_authentication
           (Error bad_authentication)
           (mkFailure (Int 515) (str "Bad authentication" ++ CRLF)
                      bad_authentication) eq_refl).
Defined.

(* ===================================================================== *)
(** ** More on the machine                                                *)
(* ===================================================================== *)

Lemma written_to_alter_listeners h' h ev (g : Socket -> list (nat * listener))
      (s : State) :
  written_to h'
    (set_sockets (alter (fun k => set_listeners ev (g k) k) h (sockets s)) s)
  = written_to h' s.
Proof.
  unfold written_to. simpl. destruct (decide (h = h')) as [->|Hne].
  - rewrite list_lookup_alter_eq. destruct (sockets s !! h'); [|done].
    by destruct ev.
  - by rewrite list_lookup_alter_ne.
Qed.

(** The listeners waiting for the end of the stream run one after the
    other, each calling its callback; nothing is written and the
    connection is not touched. *)
Lemma run_end_listeners h ls : forall s,
  Forall is_DisconnL ls ->
  exists s',
    run_listeners h EvEnd ls s = Returned s' /\
    connection s' = connection s /\
    opts s' = opts s /\
    log s' = log s ++ omap (end_call (connection s)) ls /\
    (forall h', written_to h' s' = written_to h' s) /\
    length (sockets s') = length (sockets s).
Proof.
  induction ls as [|[a x] ls IH]; intros s Hls.
  - exists s. by rewrite app_nil_r.
  - apply Forall_cons in Hls as [Hx Hls].
    destruct x as [| | | | |c]; try done.
    cbn [run_listeners is_once name_of run_listener].
    set (s0 := remove_listener h OnEnd (a, DisconnL c) s).
    assert (forall h', written_to h' s0 = written_to h' s) as Hw0
        by (intros h'; apply written_to_alter_listeners).
    assert (length (sockets s0) = length (sockets s)) as Hlen0
        by (simpl; apply length_alter).
    destruct c as [id|[id|] data]; cbn [call_disconnect_cb];
      unfold call_user; cbn [and_then].
    + destruct (IH (emit_obs (CbCall id ArgsNone (connection s0)) s0) Hls)
        as (s' & -> & Hc & Ho & Hl & Hw & Hlen).
      exists s'. split; [done|]. split; [done|]. split; [done|].
      split; [|split; [intros h'; by rewrite Hw, <- Hw0 | by rewrite Hlen]].
      rewrite Hl. simpl. by rewrite <- app_assoc.
    + destruct (IH (emit_obs (CbCall id (parse_reply data) (connection s0)) s0)
                   Hls)
        as (s' & -> & Hc & Ho & Hl & Hw & Hlen).
      exists s'. split; [done|]. split; [done|]. split; [done|].
      split; [|split; [intros h'; by rewrite Hw, <- Hw0 | by rewrite Hlen]].
      rewrite Hl. simpl. by rewrite <- app_assoc.
    + destruct (IH s0 Hls) as (s' & -> & Hc & Ho & Hl & Hw & Hlen).
      exists s'. split; [done|]. split; [done|]. split; [done|].
      split; [done|]. split; [intros h'; by rewrite Hw | by rewrite Hlen].
Qed.

Lemma emit_end_wf (s : State) (h : nat) (k : Socket) :
  wf s ->
  sockets s !! h = Some k ->
  exists s',
    emit h EvEnd s = Returned s' /\
    connection s' = None /\
    opts s' = opts s /\
    log s' = log s ++ EmitEnd :: omap (end_call None) (tail (on_end k)) /\
    (forall h', written_to h' s' = written_to h' s) /\
    length (sockets s') = length (sockets s).
Proof.
  intros [Hs _] Hk. unfold emit. rewrite Hk. cbn [name_of listeners].
  assert (end_listeners_ok k) as Hend by (eapply Forall_lookup in Hs; eauto).
  unfold end_listeners_ok in Hend.
  destruct (on_end k) as [|[a [| | | | |]] ls]; try done.
  cbn [run_listeners is_once run_listener and_then tail].
  destruct (run_end_listeners h ls (emit_obs EmitEnd (set_connection None s))
              Hend)
    as (s' & -> & Hc & Ho & Hl & Hw & Hlen).
  exists s'. split; [done|]. split; [done|]. split; [done|].
  split; [|done]. rewrite Hl. simpl. by rewrite <- app_assoc.
Qed.


(** X5: when a socket ends, the connection is cleared, ['end'] is
    emitted, and then every callback waiting for the close is called
    once, in the order of the [disconnect] calls, seeing no connection;
    nothing is written and nothing is thrown. *)
Theorem end_of_stream (s : State) (h : nat) (k : Socket) :
  wf s ->
  sockets s !! h = Some k ->
  exists s',
    emit h EvEnd s = Returned s' /\
    connection s' = None /\
    opts s' = opts s /\
    log s' = log s ++ EmitEnd :: omap (end_call None) (tail (on_end k)) /\
    (forall h', written_to h' s' = written_to h' s) /\
    length (sockets s') = length (sockets s).
Proof. apply emit_end_wf. Qed.

Lemma end_of_stream_witness :
  exists s',
    emit 0 EvEnd awaiting_reply = Returned s' /\
    connection s' = None /\
    log s' = log awaiting_reply ++ [EmitEnd].
Proof.
  destruct (end_of_stream awaiting_reply 0
              (mkSocket
                 (mkParams (VString (str "localhost")) (VNumber (Int 9051))
                           None (Some []))
                 [(0%nat,
                   ConnErrL (Some (SendCont (str "SIGNAL NEWNYM")
                                            (Some 1%nat) VUndefined)))]
                 [(1%nat, PipeData);
                  (4%nat, ReplyL (Some 1%nat) VUndefined)]
                 [(2%nat, PipeEnd)]
                 [authenticate_line []; str "SIGNAL NEWNYM" ++ CRLF]
                 false)
              (wf_run _ _ (wf_TorControl None)) eq_refl)
    as (s' & H1 & H2 & _ & H4 & _).
  exists s'. exact (conj H1 (conj H2 H4)).
Defined.

Lemma run_three i1 i2 i3 s :
  run [i1; i2; i3] s
  = and_then (step i1 s)
      (fun s1 => and_then (step i2 s1)
                   (fun s2 => step i3 s2)).
Proof.
  simpl. destruct (step i1 s) as [s1|]; [|done]. simpl.
  destruct (step i2 s1) as [s2|]; [|done]. simpl.
  by destruct (step i3 s2).
Qed.

(** X6: [disconnect] on an open object, the end of the stream, then
    [disconnect] again: the first callback is called when the stream
    ends, after the callbacks that were waiting before it, the second
    at once; both see no connection, nothing is thrown, and [QUIT] was
    written once unless the first call was forced. *)
Theorem close_twice (s : State) (h : nat) (k : Socket) (id1 id2 : nat)
        (force force2 : value) :
  wf s ->
  connection s = Some h ->
  sockets s !! h = Some k ->
  exists s',
    run [Call_disconnect (Some id1) force;
         Socket_emits h EvEnd;
         Call_disconnect (Some id2) force2] s
    = Returned s' /\
    connection s' = None /\
    log s'
    = log s ++ EmitEnd :: omap (end_call None) (tail (on_end k))
      ++ [CbCall id1 ArgsNone None; CbCall id2 ArgsNone None] /\
    written_to h s'
    = written_to h s ++ (if ToBoolean force then [] else [QUIT_line]).
Proof.
  intros Hwf Hc Hk. rewrite run_three. cbn [step fmap option_fmap option_map].
  pose proof (wf_disconnect (Some (DisconnectUser id1)) force s Hwf) as Hwf1.
  unfold disconnect at 1. unfold disconnect in Hwf1. rewrite Hc in Hwf1 |- *.
  set (s0 := add_listener h OnEnd (DisconnL (DisconnectUser id1)) s) in *.
  assert (on_end k <> []) as Hne.
  { destruct Hwf as [Hs _]. eapply Forall_lookup in Hs; [|exact Hk].
    unfold end_listeners_ok in Hs. by destruct (on_end k). }
  destruct (ToBoolean force); cbn [and_then state_of] in Hwf1 |- *.
  - edestruct (emit_end_wf (socket_end h s0) h)
      as (s2 & -> & Hc2 & _ & Hl2 & Hw2 & _); [exact Hwf1| |].
    { simpl. rewrite !list_lookup_alter_eq, Hk. reflexivity. }
    cbn [and_then on_end] in *. unfold disconnect. rewrite Hc2.
    cbn [call_disconnect_cb]. unfold call_user. rewrite Hc2.
    eexists. split; [reflexivity|]. split; [exact Hc2|]. split.
    + simpl. rewrite Hl2. simpl.
      destruct (on_end k) as [|r ls]; [done|]. simpl.
      rewrite omap_app. simpl.
      repeat (rewrite <- app_assoc; simpl). reflexivity.
    + simpl. unfold written_to in *. simpl. specialize (Hw2 h).
      simpl in Hw2. rewrite Hw2. rewrite !list_lookup_alter_eq, Hk.
      simpl. by rewrite app_nil_r.
  - edestruct (emit_end_wf (socket_write h QUIT_line s0) h)
      as (s2 & -> & Hc2 & _ & Hl2 & Hw2 & _); [exact Hwf1| |].
    { simpl. rewrite !list_lookup_alter_eq, Hk. reflexivity. }
    cbn [and_then on_end] in *. unfold disconnect. rewrite Hc2.
    cbn [call_disconnect_cb]. unfold call_user. rewrite Hc2.
    eexists. split; [reflexivity|]. split; [exact Hc2|]. split.
    + simpl. rewrite Hl2. simpl.
      destruct (on_end k) as [|r ls]; [done|]. simpl.
      rewrite omap_app. simpl.
      repeat (rewrite <- app_assoc; simpl). reflexivity.
    + simpl. unfold written_to in *. simpl. specialize (Hw2 h).
      simpl in Hw2. rewrite Hw2. rewrite !list_lookup_alter_eq, Hk.
      reflexivity.
Qed.

Lemma close_twice_witness :
  exists s',
    run [Call_disconnect (Some 1%nat) VUndefined;
         Socket_emits 0 EvEnd;
         Call_disconnect (Some 2%nat) VUndefined] awaiting_reply
    = Returned s' /\
    connection s' = None /\
    log s'
    = log awaiting_reply
      ++ [EmitEnd; CbCall 1 ArgsNone None; CbCall 2 ArgsNone None] /\
    written_to 0 s'
    = [authenticate_line []; str "SIGNAL NEWNYM" ++ CRLF; QUIT_line].
Proof.
  exact (close_twice awaiting_reply 0 awaiting_reply_socket 1%nat 2%nat
           VUndefined VUndefined
           (wf_run _ _ (wf_TorControl None)) eq_refl eq_refl).
Defined.

(** *** Commands on an object without a connection, continued *)

Ltac machine :=
  repeat first
    [ rewrite run_cons
    | rewrite sendCommand_closed
    | rewrite connect_closed
    | rewrite emit_data_awaiting_auth
    | rewrite emit_data_awaiting_reply
    | rewrite emit_data_idle
    | rewrite emit_error_connecting
    | rewrite emit_end_idle
    | rewrite emit_end_disconnecting
    | rewrite add_listener_last
    | rewrite socket_write_last
    | rewrite written_to_last
    | progress cbn [step and_then run state_of fmap option_fmap option_map
                    call_connect_cb call_disconnect_cb call_maybe listeners
                    set_listeners net_params on_error on_data on_end written
                    end_called app opts connection sockets next_listener log]
    | progress unfold call_user, emit_obs ].

(** X7: when the server ends the stream before it has answered the
    password, or after the command was written and before its reply, the
    connection is cleared and the callback of the command is not
    called. *)
Theorem end_before_reply_loses_callback (s : State) (command : jsstring)
        (id : nat) (keep : value) :
  connection s = None ->
  (exists s',
     run [Call_sendCommand command (Some id) keep;
          Socket_emits (length (sockets s)) EvEnd] s
     = Returned s' /\
     connection s' = None /\
     calls (log s') = calls (log s) /\
     written_to (length (sockets s)) s'
     = [authenticate_line (password (opts s))]) /\
  (forall ok,
     begins_250 ok ->
     exists s',
       run [Call_sendCommand command (Some id) keep;
            Socket_emits (length (sockets s)) (EvData ok);
            Socket_emits (length (sockets s)) EvEnd] s
       = Returned s' /\
       connection s' = None /\
       calls (log s') = calls (log s) /\
       written_to (length (sockets s)) s'
       = [authenticate_line (password (opts s)); command_line command]).
Proof.
  destruct s as [o conn l n lg]. simpl. intros ->. split.
  - machine. eexists. split; [reflexivity|]. machine.
    split; [done|]. split; [|done]. by rewrite calls_app, app_nil_r.
  - intros ok Hok. machine. rewrite bool_decide_eq_true_2 by done.
    machine. eexists. split; [reflexivity|]. machine.
    split; [done|]. split; [|done]. by rewrite !calls_app, !app_nil_r.
Qed.

Lemma end_before_reply_loses_callback_witness :
  exists s',
    run [Call_sendCommand (str "SIGNAL NEWNYM") (Some 1%nat) VUndefined;
         Socket_emits 0 EvEnd] (TorControl None)
    = Returned s' /\
    connection s' = None /\
    calls (log s') = [] /\
    written_to 0 s' = [authenticate_line []].
Proof.
  exact (proj1 (end_before_reply_loses_callback (TorControl None)
                  (str "SIGNAL NEWNYM") 1%nat VUndefined eq_refl)).
Defined.

(** X8: after a socket error during [connect] the dead socket stays
    installed as the connection: a second error on it is thrown, no
    listener being left, and the next command is written to it without
    a password line and without a new socket. *)
Theorem socket_error_leaves_connection (s : State) (command : jsstring)
        (id : nat) (keep : value) (err : jsstring) :
  connection s = None ->
  exists s1,
    run [Call_sendCommand command (Some id) keep;
         Socket_emits (length (sockets s)) (EvError err)] s
    = Returned s1 /\
    connection s1 = Some (length (sockets s)) /\
    (forall err2, exists s2,
       emit (length (sockets s)) (EvError err2) s1
       = Thrown (Unhandled err2) s2) /\
    (forall command2 cb2 keep2, exists s2,
       sendCommand command2 cb2 keep2 s1 = Returned s2 /\
       length (sockets s2) = S (length (sockets s)) /\
       written_to (length (sockets s)) s2
       = [authenticate_line (password (opts s)); command_line command2]).
Proof.
  destruct s as [o conn l n lg]. simpl. intros ->.
  machine. eexists. split; [reflexivity|]. split; [done|]. split.
  - intros err2. rewrite emit_last. simpl. by eexists.
  - intros command2 cb2 keep2. unfold sendCommand, connect. simpl.
    machine. eexists. split; [reflexivity|]. simpl.
    rewrite length_app. simpl. split; [lia|]. by machine.
Qed.

Lemma socket_error_leaves_connection_witness :
  exists s1,
    run [Call_sendCommand (str "SIGNAL NEWNYM") (Some 1%nat) VUndefined;
         Socket_emits 0 (EvError (str "ECONNREFUSED"))] (TorControl None)
    = Returned s1 /\
    connection s1 = Some 0%nat.
Proof.
  destruct (socket_error_leaves_connection (TorControl None)
              (str "SIGNAL NEWNYM") 1%nat VUndefined
              (str "ECONNREFUSED") eq_refl)
    as (s1 & H1 & H2 & _).
  exists s1. exact (conj H1 H2).
Defined.

(** X9: [connect] without a callback examines nothing: whatever the
    first chunk is, and also when the socket reports an error, nothing
    is reported and nothing is thrown, and the socket stays installed as
    the connection. *)
Theorem connect_without_callback (s : State) (params : option Params) :
  connection s = None ->
  (forall d, exists s',
     run [Call_connect params None;
          Socket_emits (length (sockets s)) (EvData d)] s
     = Returned s' /\
     connection s' = Some (length (sockets s)) /\
     log s' = log s ++ [EmitData d]) /\
  (forall err, exists s',
     run [Call_connect params None;
          Socket_emits (length (sockets s)) (EvError err)] s
     = Returned s' /\
     connection s' = Some (length (sockets s)) /\
     log s' = log s).
Proof.
  destruct s as [o conn l n lg]. simpl. intros ->. split.
  - intros d. machine. by eexists.
  - intros err. machine. by eexists.
Qed.

Lemma connect_without_callback_witness :
  exists s',
    run [Call_connect None None;
         Socket_emits 0 (EvData bad_authentication)] (TorControl None)
    = Returned s' /\
    connection s' = Some 0%nat /\
    log s' = [EmitData bad_authentication].
Proof.
  exact (proj1 (connect_without_callback (TorControl None) None eq_refl)
           bad_authentication).
Defined.

(** The chunk that answers the password, a second command having been
    issued before it arrived: it is forwarded, accepted as the answer to
    the password, and then taken as the reply of the second command. *)
Lemma emit_data_overlapping o l p errs a b b' command1 cb1 keep1 cb2 keep2
      ends w e n lg d :
  begins_250 d ->
  (b' < n)%nat ->
  emit (length l) (EvData d)
    (mkState o (Some (length l))
       (l ++ [mkSocket p errs
                [(a, PipeData); (b, AuthL (SendCont command1 cb1 keep1));
                 (b', ReplyL cb2 keep2)]
                ends w e]) n lg)
  = tryDisconnect keep2 (ParseCont cb2 d)
      (mkState o (Some (length l))
         (l ++ [mkSocket p errs
                  [(a, PipeData); (n, ReplyL cb1 keep1)]
                  ends (w ++ [command1 ++ CRLF]) e])
         (S n) (lg ++ [EmitData d])).
Proof.
  intros Hd Hb. rewrite emit_last.
  cbn [name_of listeners on_data run_listeners is_once run_listener].
  unfold emit_obs. cbn [and_then opts connection sockets next_listener log].
  rewrite remove_listener_last. rewrite bool_decide_eq_true_2 by done.
  cbn [call_connect_cb connection].
  rewrite add_listener_last, socket_write_last.
  cbn [and_then listeners set_listeners net_params on_error on_data on_end
       written end_called].
  rewrite remove_listener_last.
  cbn [listeners set_listeners net_params on_error on_data on_end written
       end_called].
  replace (filter (fun r' => r' <> (b', ReplyL cb2 keep2))
             (filter (fun r' => r' <> (b, AuthL (SendCont command1 cb1 keep1)))
                [(a, PipeData); (b, AuthL (SendCont command1 cb1 keep1));
                 (b', ReplyL cb2 keep2)]
              ++ [(n, ReplyL cb1 keep1)]))
    with [(a, PipeData); (n, ReplyL cb1 keep1)].
  - by destruct (tryDisconnect _ _ _).
  - symmetry. rewrite filter_app.
    repeat first
      [ rewrite filter_cons
      | rewrite filter_nil
      | let H := fresh "Hreg" in
        case_decide as H; try congruence; try (injection H as ? ?; lia) ].
    reflexivity.
Qed.

Lemma sendCommand_open o h l n lg command cb keep :
  sendCommand command cb keep (mkState o (Some h) l n lg)
  = Returned
      (socket_write h (command ++ CRLF)
         (add_listener h OnData (ReplyL cb keep) (mkState o (Some h) l n lg))).
Proof. reflexivity. Qed.

(** X10: a second command issued before the password is answered is
    written ahead of the first, and the chunk that answers the password
    is delivered to it as its reply; the callback of the first command
    is not called when the stream then ends. *)
Theorem overlapping_commands (s : State) (command1 command2 : jsstring)
        (id1 id2 : nat) (keep1 keep2 : value) (ok : jsstring) :
  connection s = None ->
  begins_250 ok ->
  exists s',
    run [Call_sendCommand command1 (Some id1) keep1;
         Call_sendCommand command2 (Some id2) keep2;
         Socket_emits (length (sockets s)) (EvData ok);
         Socket_emits (length (sockets s)) EvEnd] s
    = Returned s' /\
    calls (log s')
    = calls (log s)
      ++ [(id2, parse_reply ok,
           if ToBoolean keep2 || isPersistent s
           then Some (length (sockets s)) else None)] /\
    written_to (length (sockets s)) s'
    = [authenticate_line (password (opts s));
       command_line command2; command_line command1]
      ++ (if ToBoolean keep2 || isPersistent s then [] else [QUIT_line]).
Proof.
  destruct s as [o conn l n lg]. unfold isPersistent. simpl. intros -> Hok.
  machine. rewrite sendCommand_open. machine.
  rewrite emit_data_overlapping by (done || lia).
  destruct (ToBoolean keep2 || ToBoolean (persistent o)) eqn:Hkeep.
  - rewrite tryDisconnect_keep by done. machine.
    eexists. split; [reflexivity|]. machine. split; [|done].
    rewrite !calls_app. simpl. by rewrite !app_nil_r.
  - rewrite (tryDisconnect_quit _ _ _ (length l)) by done. machine.
    eexists. split; [reflexivity|]. machine. split; [|done].
    rewrite !calls_app. simpl. by rewrite !app_nil_r.
Qed.

Lemma overlapping_commands_witness :
  exists s',
    run [Call_sendCommand (str "GETINFO version") (Some 1%nat) VUndefined;
         Call_sendCommand (str "SIGNAL NEWNYM") (Some 2%nat) VUndefined;
         Socket_emits 0 (EvData authenticated);
         Socket_emits 0 EvEnd] (TorControl None)
    = Returned s' /\
    calls (log s')
    = [(2%nat,
        ArgsReply (mkReply (Int 250) [str "OK"] authenticated), None)] /\
    written_to 0 s'
    = [authenticate_line []; command_line (str "SIGNAL NEWNYM");
       command_line (str "GETINFO version"); QUIT_line].
Proof.
  exact (overlapping_commands (TorControl None) (str "GETINFO version")
           (str "SIGNAL NEWNYM") 1%nat 2%nat VUndefined VUndefined
           authenticated eq_refl eq_refl).
Defined.

(** X11: whether the connection is closed is decided when the reply
    arrives: [setPersistent] called between the command and its reply
    decides, not the flag the object had when the command was issued. *)
Theorem persistence_read_at_reply (s : State) (command : jsstring) (id : nat)
        (keep v : value) (ok reply : jsstring) :
  connection s = None ->
  begins_250 ok ->
  exists s',
    run [Call_sendCommand command (Some id) keep;
         Socket_emits (length (sockets s)) (EvData ok);
         Call_setPersistent v;
         Socket_emits (length (sockets s)) (EvData reply)] s
    = Returned s' /\
    calls (log s')
    = calls (log s)
      ++ (if ToBoolean keep || ToBoolean v
          then [(id, parse_reply reply, Some (length (sockets s)))]
          else []) /\
    written_to (length (sockets s)) s'
    = [authenticate_line (password (opts s)); command_line command]
      ++ (if ToBoolean keep || ToBoolean v then [] else [QUIT_line]).
Proof.
  destruct s as [o conn l n lg]. simpl. intros -> Hok.
  machine. rewrite bool_decide_eq_true_2 by done. machine.
  unfold setPersistent, set_opts. machine.
  destruct (ToBoolean keep || ToBoolean v) eqn:Hkeep.
  - rewrite tryDisconnect_keep by done. machine.
    eexists. split; [reflexivity|]. machine. split; [|done].
    rewrite !calls_app. simpl. by rewrite !app_nil_r.
  - rewrite (tryDisconnect_quit _ _ _ (length l)) by done. machine.
    eexists. split; [reflexivity|]. machine. split; [|done].
    rewrite !calls_app. simpl. by rewrite !app_nil_r.
Qed.

Lemma persistence_read_at_reply_witness :
  exists s',
    run [Call_sendCommand (str "SIGNAL NEWNYM") (Some 1%nat) VUndefined;
         Socket_emits 0 (EvData authenticated);
         Call_setPersistent (VBool true);
         Socket_emits 0 (EvData authenticated)] (TorControl None)
    = Returned s' /\
    calls (log s')
    = [(1%nat,
        ArgsReply (mkReply (Int 250) [str "OK"] authenticated),
        Some 0%nat)] /\
    written_to 0 s'
    = [authenticate_line []; command_line (str "SIGNAL NEWNYM")].
Proof.
  exact (persistence_read_at_reply (TorControl None) (str "SIGNAL NEWNYM")
           1%nat VUndefined (VBool true) authenticated authenticated
           eq_refl eq_refl).
Defined.

(** *** Commands one after the other *)

Lemma run_app (inputs1 inputs2 : list input) : forall s,
  run (inputs1 ++ inputs2) s = and_then (run inputs1 s) (run inputs2).
Proof.
  induction inputs1 as [|i inputs1 IH]; intros s; [done|].
  simpl. destruct (step i s) as [s'|e s']; simpl; [apply IH|done].
Qed.

Lemma deliveries_app (l1 l2 : list obs) :
  deliveries (l1 ++ l2) = deliveries l1 ++ deliveries l2.
Proof. unfold deliveries. by rewrite calls_app, map_app. Qed.

(** One command on a socket of its own, from the password to the end
    of the stream. *)
Lemma run_exchange o l n lg ok x :
  begins_250 ok ->
  exists k' n' lg',
    run (exchange_inputs (length l) ok x) (mkState o None l n lg)
    = Returned (mkState o None (l ++ [k']) n' lg') /\
    deliveries lg' = deliveries lg ++ [result_of x] /\
    written k'
    = [authenticate_line (password o); command_line (x_command x)]
      ++ (if ToBoolean (x_keep x) || ToBoolean (persistent o) then []
          else [QUIT_line]).
Proof.
  intros Hok. unfold exchange_inputs.
  machine. rewrite bool_decide_eq_true_2 by done. machine.
  destruct (ToBoolean (x_keep x) || ToBoolean (persistent o)) eqn:Hkeep.
  - rewrite tryDisconnect_keep by done. machine.
    eexists _, _, _. split; [reflexivity|]. split; [|done].
    rewrite !deliveries_app. by rewrite !app_nil_r.
  - rewrite (tryDisconnect_quit _ _ _ (length l)) by done. machine.
    eexists _, _, _. split; [reflexivity|]. split; [|done].
    rewrite !deliveries_app. by rewrite !app_nil_r.
Qed.

Lemma run_session o ok xs :
  begins_250 ok ->
  forall l n lg,
  exists ks n' lg',
    run (session_inputs (length l) ok xs) (mkState o None l n lg)
    = Returned (mkState o None (l ++ ks) n' lg') /\
    deliveries lg' = deliveries lg ++ map result_of xs /\
    Forall2
      (fun x k =>
         written k
         = [authenticate_line (password o); command_line (x_command x)]
           ++ (if ToBoolean (x_keep x) || ToBoolean (persistent o) then []
               else [QUIT_line]))
      xs ks.
Proof.
  intros Hok. induction xs as [|x xs IH]; intros l n lg.
  - exists [], n, lg. rewrite !app_nil_r. by repeat split.
  - cbn [session_inputs]. rewrite run_app.
    destruct (run_exchange o l n lg ok x Hok) as (k' & n1 & lg1 & -> & Hd & Hw).
    cbn [and_then].
    replace (S (length l)) with (length (l ++ [k']))
      by (rewrite length_app; simpl; lia).
    destruct (IH (l ++ [k']) n1 lg1) as (ks & n' & lg' & -> & Hd' & Hws).
    exists (k' :: ks), n', lg'. rewrite <- app_assoc. split; [done|].
    split; [|by constructor].
    rewrite Hd', Hd. simpl. by rewrite <- app_assoc.
Qed.

(** X12: commands issued one after the other, each answered before
    the stream ends, each use a socket of their own: every callback
    receives the parse of its reply, in the order of the commands, every
    socket is written the password, the command and, unless the
    connection was to be kept, [QUIT], and the object ends without a
    connection. *)
Theorem sequential_commands (s : State) (ok : jsstring)
        (xs : list exchange) :
  connection s = None ->
  begins_250 ok ->
  exists s',
    run (session_inputs (length (sockets s)) ok xs) s = Returned s' /\
    connection s' = None /\
    opts s' = opts s /\
    length (sockets s') = (length (sockets s) + length xs)%nat /\
    deliveries (log s') = deliveries (log s) ++ map result_of xs /\
    (forall i x,
       xs !! i = Some x ->
       written_to (length (sockets s) + i) s'
       = [authenticate_line (password (opts s));
          command_line (x_command x)]
         ++ (if ToBoolean (x_keep x) || isPersistent s then []
             else [QUIT_line])).
Proof.
  destruct s as [o conn l n lg]. unfold isPersistent. simpl. intros -> Hok.
  destruct (run_session o ok xs Hok l n lg) as (ks & n' & lg' & -> & Hd & Hws).
  eexists. split; [reflexivity|]. simpl.
  split; [done|]. split; [done|]. split.
  { pose proof (Forall2_length _ _ _ Hws) as Hlen. rewrite length_app. lia. }
  split; [done|]. intros i x Hx.
  destruct (Forall2_lookup_l _ _ _ _ _ Hws Hx) as (k & Hk & Hw).
  unfold written_to. simpl. rewrite lookup_app_r by lia.
  replace (length l + i - length l)%nat with i by lia. by rewrite Hk.
Qed.

Lemma sequential_commands_witness :
  exists s',
    run (session_inputs 0 authenticated
           [mkExchange (str "SIGNAL NEWNYM") 1 VUndefined authenticated;
            mkExchange (str "GETINFO version") 2 VUndefined
                       (str "250-version=0.4.8" ++ CRLF ++ authenticated)])
        (TorControl None)
    = Returned s' /\
    connection s' = None /\
    length (sockets s') = 2%nat /\
    deliveries (log s')
    = [(1%nat, ArgsReply (mkReply (Int 250) [str "OK"] authenticated));
       (2%nat,
        ArgsReply
          (mkReply (Int 250) [str "version=0.4.8"; str "OK"]
             (str "250-version=0.4.8" ++ CRLF ++ authenticated)))].
Proof.
  destruct (sequential_commands (TorControl None) authenticated
              [mkExchange (str "SIGNAL NEWNYM") 1 VUndefined authenticated;
               mkExchange (str "GETINFO version") 2 VUndefined
                          (str "250-version=0.4.8" ++ CRLF ++ authenticated)]
              eq_refl eq_refl)
    as (s' & H1 & H2 & _ & H4 & H5 & _).
  exists s'. exact (conj H1 (conj H2 (conj H4 H5))).
Defined.

(** Commands on an open socket that has no listener waiting, the
    connection being kept after each. *)
Lemma run_steady o l p errs a ends e xs :
  Forall (fun x => ToBoolean (x_keep x) || ToBoolean (persistent o) = true)
         xs ->
  forall w n lg,
  exists n' lg',
    run (steady_inputs (length l) xs)
        (mkState o (Some (length l))
           (l ++ [mkSocket p errs [(a, PipeData)] ends w e]) n lg)
    = Returned
        (mkState o (Some (length l))
           (l ++ [mkSocket p errs [(a, PipeData)] ends
                    (w ++ map (fun x => command_line (x_command x)) xs) e])
           n' lg') /\
    calls lg'
    = calls lg
      ++ map (fun x => (x_cb x, parse_reply (x_reply x), Some (length l))) xs.
Proof.
  induction 1 as [|x xs Hx Hxs IH]; intros w n lg.
  - exists n, lg. simpl. by rewrite !app_nil_r.
  - unfold steady_inputs. cbn [map concat app].
    fold (steady_inputs (length l) xs).
    machine. rewrite sendCommand_open. machine.
    rewrite tryDisconnect_keep by done. machine.
    destruct (IH (w ++ [x_command x ++ CRLF]) (S n)
                 ((lg ++ [EmitData (x_reply x)])
                  ++ [CbCall (x_cb x) (parse_reply (x_reply x))
                             (Some (length l))]))
      as (n' & lg' & -> & Hc).
    exists n', lg'. rewrite <- app_assoc. split; [done|].
    rewrite Hc, !calls_app. simpl. by rewrite app_nil_r, <- app_assoc.
Qed.

(** X13: on a persistent object, commands issued one after the other,
    each after the reply of the one before, share one socket: the
    password is written once, then the commands in order, never [QUIT];
    every callback receives the parse of its reply at once, the
    connection being open. *)
Theorem persistent_session (s : State) (ok : jsstring) (x : exchange)
        (xs : list exchange) :
  connection s = None ->
  isPersistent s = true ->
  begins_250 ok ->
  exists s',
    run ([Call_sendCommand (x_command x) (Some (x_cb x)) (x_keep x);
          Socket_emits (length (sockets s)) (EvData ok);
          Socket_emits (length (sockets s)) (EvData (x_reply x))]
         ++ steady_inputs (length (sockets s)) xs) s
    = Returned s' /\
    connection s' = Some (length (sockets s)) /\
    length (sockets s') = S (length (sockets s)) /\
    written_to (length (sockets s)) s'
    = authenticate_line (password (opts s))
      :: map (fun x => command_line (x_command x)) (x :: xs) /\
    calls (log s')
    = calls (log s)
      ++ map (fun x => (x_cb x, parse_reply (x_reply x),
                        Some (length (sockets s)))) (x :: xs).
Proof.
  destruct s as [o conn l n lg]. unfold isPersistent.
  cbn [connection sockets opts log]. intros -> Hp Hok. rewrite run_app.
  machine. rewrite bool_decide_eq_true_2 by done. machine.
  rewrite tryDisconnect_keep by (unfold isPersistent; simpl;
                                 by rewrite Hp, orb_true_r).
  machine.
  edestruct (run_steady o l) as (n' & lg' & -> & Hc).
  { apply Forall_forall. intros y _. by rewrite Hp, orb_true_r. }
  eexists. split; [reflexivity|]. simpl. split; [done|].
  split; [rewrite length_app; simpl; lia|].
  split; [machine; reflexivity|].
  rewrite Hc, !calls_app. simpl. by rewrite !app_nil_r, <- app_assoc.
Qed.

Lemma persistent_session_witness :
  exists s',
    run ([Call_sendCommand (str "SIGNAL NEWNYM") (Some 1%nat) VUndefined;
          Socket_emits 0 (EvData authenticated);
          Socket_emits 0 (EvData authenticated)]
         ++ steady_inputs 0
              [mkExchange (str "SIGNAL NEWNYM") 2 VUndefined authenticated])
        (TorControl (Some (mkUserOpts VUndefined VUndefined None None
                                      (Some (VBool true)))))
    = Returned s' /\
    connection s' = Some 0%nat /\
    length (sockets s') = 1%nat /\
    written_to 0 s'
    = [authenticate_line []; command_line (str "SIGNAL NEWNYM");
       command_line (str "SIGNAL NEWNYM")].
Proof.
  destruct (persistent_session
              (TorControl (Some (mkUserOpts VUndefined VUndefined None None
                                            (Some (VBool true)))))
              authenticated
              (mkExchange (str "SIGNAL NEWNYM") 1 VUndefined authenticated)
              [mkExchange (str "SIGNAL NEWNYM") 2 VUndefined authenticated]
              eq_refl eq_refl eq_refl)
    as (s' & H1 & H2 & H3 & H4 & _).
  exists s'. exact (conj H1 (conj H2 (conj H3 H4))).
Defined.

(** *** The commands *)

(** A command on an object without a connection, up to its reply. *)
Lemma run_until_reply o l n lg command id keep ok reply :
  begins_250 ok ->
  exists s',
    and_then (sendCommand command (Some id) keep (mkState o None l n lg))
      (run [Socket_emits (length l) (EvData ok);
            Socket_emits (length l) (EvData reply)])
    = Returned s' /\
    connection s' = Some (length l) /\
    calls (log s')
    = calls lg
      ++ (if ToBoolean keep || ToBoolean (persistent o)
          then [(id, parse_reply reply, Some (length l))] else []) /\
    written_to (length l) s'
    = [authenticate_line (password o); command_line command]
      ++ (if ToBoolean keep || ToBoolean (persistent o) then []
          else [QUIT_line]).
Proof.
  intros Hok. machine. rewrite bool_decide_eq_true_2 by done. machine.
  destruct (ToBoolean keep || ToBoolean (persistent o)) eqn:Hkeep.
  - rewrite tryDisconnect_keep by done. machine.
    eexists. split; [reflexivity|]. machine. split; [done|]. split; [|done].
    rewrite !calls_app. simpl. by rewrite !app_nil_r.
  - rewrite (tryDisconnect_quit _ _ _ (length l)) by done. machine.
    eexists. split; [reflexivity|]. machine. split; [done|]. split; [|done].
    rewrite !calls_app. simpl. by rewrite !app_nil_r.
Qed.

(** X14: [signalReload], [signalShutdown], [signalHalt] and
    [signalTerm] keep the connection whatever the object's persistence:
    the result is delivered when the reply arrives and [QUIT] is not
    written.  The eight other signals close a connection that is not
    persistent: [QUIT] is written and the result waits for the end of
    the stream. *)
Theorem signals_and_the_connection (s : State) (name : jsstring)
        (f : option nat -> State -> outcome) (id : nat)
        (ok reply : jsstring) :
  connection s = None ->
  begins_250 ok ->
  ((name, f) ∈ kept_signals ->
   exists s',
     and_then (f (Some id) s)
       (run [Socket_emits (length (sockets s)) (EvData ok);
             Socket_emits (length (sockets s)) (EvData reply)])
     = Returned s' /\
     connection s' = Some (length (sockets s)) /\
     calls (log s')
     = calls (log s) ++ [(id, parse_reply reply, Some (length (sockets s)))] /\
     written_to (length (sockets s)) s'
     = [authenticate_line (password (opts s));
        command_line (str "SIGNAL " ++ name)]) /\
  ((name, f) ∈ closing_signals ->
   isPersistent s = false ->
   exists s',
     and_then (f (Some id) s)
       (run [Socket_emits (length (sockets s)) (EvData ok);
             Socket_emits (length (sockets s)) (EvData reply)])
     = Returned s' /\
     connection s' = Some (length (sockets s)) /\
     calls (log s') = calls (log s) /\
     written_to (length (sockets s)) s'
     = [authenticate_line (password (opts s));
        command_line (str "SIGNAL " ++ name); QUIT_line]).
Proof.
  destruct s as [o conn l n lg]. unfold isPersistent.
  cbn [connection sockets opts log]. intros -> Hok. split.
  - intros Hin.
    assert (f = fun cb => signal name cb (VBool true)) as ->.
    { unfold kept_signals in Hin.
      repeat (apply elem_of_cons in Hin as [[= -> ->]|Hin]; [reflexivity|]).
      by apply elem_of_nil in Hin. }
    exact (run_until_reply o l n lg (str "SIGNAL " ++ name) id (VBool true)
             ok reply Hok).
  - intros Hin Hp.
    assert (f = fun cb => signal name cb VUndefined) as ->.
    { unfold closing_signals in Hin.
      repeat (apply elem_of_cons in Hin as [[= -> ->]|Hin]; [reflexivity|]).
      by apply elem_of_nil in Hin. }
    destruct (run_until_reply o l n lg (str "SIGNAL " ++ name) id VUndefined
                ok reply Hok) as (s' & H1 & H2 & H3 & H4).
    cbn [ToBoolean orb] in H3, H4. rewrite Hp in H3, H4.
    exists s'. rewrite app_nil_r in H3. by repeat split.
Qed.

Lemma signals_and_the_connection_witness :
  exists s',
    and_then (signalReload (Some 1%nat) (TorControl None))
      (run [Socket_emits 0 (EvData authenticated);
            Socket_emits 0 (EvData authenticated)])
    = Returned s' /\
    connection s' = Some 0%nat /\
    calls (log s')
    = [(1%nat, ArgsReply (mkReply (Int 250) [str "OK"] authenticated),
        Some 0%nat)] /\
    written_to 0 s'
    = [authenticate_line []; command_line (str "SIGNAL RELOAD")].
Proof.
  apply (proj1 (signals_and_the_connection (TorControl None) (str "RELOAD")
                  signalReload 1%nat authenticated authenticated
                  eq_refl eq_refl)).
  apply elem_of_cons. by left.
Defined.

(** X16: arguments left out or empty.  [getInfo] with one key is
    [getInfo] with the array of that key, and with an empty array it
    still sends [GETINFO] followed by a space; an empty string counts as
    an argument left out; and [extendCircuit] with a purpose and no
    superspec sends what it sends with that text as superspec and no
    purpose. *)
Theorem arguments_left_out (cb : option nat) (s : State) :
  (forall key, getInfo (inl key) cb s = getInfo (inr [key]) cb s) /\
  getInfo (inr []) cb s = sendCommand (str "GETINFO ") cb VUndefined s /\
  (forall id x y,
     extendCircuit id (Some []) x cb s = extendCircuit id None x cb s /\
     extendCircuit id x (Some []) cb s = extendCircuit id x None cb s /\
     extendCircuit id None y cb s = extendCircuit id y None cb s) /\
  (forall streamId circuitId,
     attachStream streamId circuitId (Some []) cb s
     = attachStream streamId circuitId None cb s).
Proof.
  split; [done|]. split; [done|]. split; [|done].
  intros id x y. split; [done|]. split.
  - unfold extendCircuit. by destruct x as [[|]|].
  - unfold extendCircuit. by destruct y as [[|]|].
Qed.

Lemma js_or_truthy (a b : value) :
  ToBoolean b = true -> ToBoolean (js_or a b) = true.
Proof. unfold js_or. by destruct (ToBoolean a) eqn:E. Qed.

(** X17: the endpoint of the first socket of a new object.  When
    neither the options nor the parameters of [connect] own a property
    [path], the socket gets no path and a host and a port that are
    truthy: the value of the parameters if it is truthy, else that of
    the options if it is truthy, else [localhost] and [9051].  When the
    options own a [path], whatever its value, and the parameters do
    not, the socket gets that path, and host and port as they were
    given, without any default.  Parameters that own a [path] are
    passed on unchanged. *)
Theorem first_socket_endpoint (uo : option UserOpts)
        (params : option Params) (cb : option connect_cb) :
  exists k,
    sockets (state_of (connect params cb (TorControl uo))) = [k] /\
    (~ owns_path uo ->
     (forall p, params = Some p -> p_path p = None) ->
     p_path (net_params k) = None /\
     p_host (net_params k)
     = js_or (from_option p_host VUndefined params)
         (js_or (u_host (default empty_object uo)) (VString (str "localhost")))
     /\
     p_port (net_params k)
     = js_or (from_option p_port VUndefined params)
         (js_or (u_port (default empty_object uo)) (VNumber (Int 9051)))
     /\
     ToBoolean (p_host (net_params k)) = true /\
     ToBoolean (p_port (net_params k)) = true) /\
    (forall pa,
       u_path (default empty_object uo) = Some pa ->
       (forall p, params = Some p -> p_path p = None) ->
       p_path (net_params k) = Some pa /\
       p_host (net_params k)
       = from_option p_host (u_host (default empty_object uo)) params /\
       p_port (net_params k)
       = from_option p_port (u_port (default empty_object uo)) params) /\
    (forall p pa,
       params = Some p -> p_path p = Some pa -> net_params k = p).
Proof.
  rewrite TorControl_closed.
  rewrite (connect_closed _ [] 0 []). eexists. split; [reflexivity|].
  cbn [net_params]. unfold owns_path, TorControl.
  destruct (default empty_object uo) as [uh up [pa|] pw pe];
    cbn [opts host port path u_path u_host u_port].
  - split; [intros Hno; destruct Hno; by eexists|]. split.
    + intros pa' [= <-] Hp. destruct params as [[ph pp ppa ppw]|]; [|done].
      specialize (Hp _ eq_refl). simpl in Hp. by subst.
    + intros p pa' -> Hp. simpl. by rewrite Hp.
  - split; [|split; [done|]].
    + intros _ Hp. destruct params as [[ph pp ppa ppw]|].
      * specialize (Hp _ eq_refl). simpl in Hp. subst. simpl.
        repeat split; by repeat apply js_or_truthy.
      * simpl. repeat split; by apply js_or_truthy.
    + intros p pa' -> Hp. simpl. by rewrite Hp.
Qed.

(** *** Forwarded chunks *)

Lemma wf_data_alter (s s' : State) (f : Socket -> Socket) (h : nat) :
  wf_data s ->
  sockets s' = alter f h (sockets s) ->
  (forall k, data_listeners_ok k -> data_listeners_ok (f k)) ->
  wf_data s'.
Proof.
  intros Hs Es Hf. unfold wf_data. rewrite Es.
  apply Forall_alter; [done|]. intros k _. apply Hf.
Qed.

Lemma wf_data_add_listener h ev x s :
  wf_data s ->
  (ev = OnData -> is_reader (0%nat, x)) ->
  wf_data (add_listener h ev x s).
Proof.
  intros Hwf Hx. eapply wf_data_alter; [done|reflexivity|].
  intros k Hk. unfold data_listeners_ok in *.
  destruct ev; simpl; try done.
  destruct (on_data k) as [|[a [| | | | |]] ls]; simpl; try done.
  apply Forall_app. split; [done|]. constructor; [|done]. by apply Hx.
Qed.

Lemma wf_data_remove_listener h ev r s :
  wf_data s -> is_once r.2 = true -> wf_data (remove_listener h ev r s).
Proof.
  intros Hwf Hr. eapply wf_data_alter; [done|reflexivity|].
  intros k Hk. unfold data_listeners_ok in *.
  destruct ev; simpl; try done.
  destruct (on_data k) as [|[a [| | | | |]] ls]; simpl; try done.
  rewrite filter_cons. case_decide as Hne.
  - apply Forall_forall. intros y Hy. apply list_elem_of_filter in Hy as [_ Hy].
    revert y Hy. by apply Forall_forall.
  - destruct r as [b x]. simpl in Hr. injection Hne as _ <-. discriminate.
Qed.

Lemma wf_data_same_sockets (s s' : State) :
  wf_data s -> sockets s' = sockets s -> wf_data s'.
Proof. unfold wf_data. by intros H ->. Qed.

Lemma wf_data_socket_write h text s :
  wf_data s -> wf_data (socket_write h text s).
Proof.
  intros Hwf. eapply wf_data_alter; [done|reflexivity|]. by intros k.
Qed.

Lemma wf_data_socket_end h s : wf_data s -> wf_data (socket_end h s).
Proof.
  intros Hwf. eapply wf_data_alter; [done|reflexivity|]. by intros k.
Qed.

Lemma wf_data_and_then (o : outcome) (k : State -> outcome) :
  wf_data (state_of o) ->
  (forall s, wf_data s -> wf_data (state_of (k s))) ->
  wf_data (state_of (and_then o k)).
Proof. destruct o as [s|e s]; simpl; auto. Qed.

Lemma wf_data_call_disconnect_cb c s :
  wf_data s -> wf_data (state_of (call_disconnect_cb c s)).
Proof. intros Hwf. by destruct c as [id|[id|] data]. Qed.

Lemma wf_data_disconnect cb force s :
  wf_data s -> wf_data (state_of (disconnect cb force s)).
Proof.
  intros Hwf. unfold disconnect. destruct (connection s) as [h|].
  - assert (wf_data match cb with
                    | Some c => add_listener h OnEnd (DisconnL c) s
                    | None => s
                    end) as Hwf'.
    { destruct cb as [c|]; [|done]. by apply wf_data_add_listener. }
    destruct (ToBoolean force); simpl.
    + by apply wf_data_socket_end.
    + by apply wf_data_socket_write.
  - destruct cb as [c|]; [|done]. by apply wf_data_call_disconnect_cb.
Qed.

Lemma wf_data_tryDisconnect keep c s :
  wf_data s -> wf_data (state_of (tryDisconnect keep c s)).
Proof.
  intros Hwf. unfold tryDisconnect.
  destruct (_ || _);
    [by apply wf_data_call_disconnect_cb | by apply wf_data_disconnect].
Qed.

Lemma wf_data_call_connect_cb c r s :
  wf_data s -> wf_data (state_of (call_connect_cb c r s)).
Proof.
  intros Hwf. destruct c as [id|command cb keep]; simpl.
  - by destruct r.
  - destruct r as [e|[h|]]; simpl; try done.
    + by destruct cb.
    + by apply wf_data_socket_write, wf_data_add_listener.
Qed.

Lemma wf_data_connect params cb s :
  wf_data s -> wf_data (state_of (connect params cb s)).
Proof.
  intros Hwf. destruct s as [o [h|] l n lg].
  - unfold connect. simpl. destruct cb as [c|]; [|done].
    by apply wf_data_call_connect_cb.
  - rewrite connect_closed. unfold wf_data in *. simpl in *.
    apply Forall_app. split; [done|]. constructor; [|done].
    unfold data_listeners_ok. simpl. destruct cb; by repeat constructor.
Qed.

Lemma wf_data_run_listener x ev s :
  wf_data s -> wf_data (state_of (run_listener x ev s)).
Proof.
  intros Hwf. destruct x as [[c|]| | |c|cb keep|c], ev as [err|d|];
    cbn [run_listener state_of]; try done.
  - by apply wf_data_call_connect_cb.
  - destruct (bool_decide _); by apply wf_data_call_connect_cb.
  - by apply wf_data_tryDisconnect.
  - by apply wf_data_call_disconnect_cb.
Qed.

Lemma wf_data_run_listeners h ev ls : forall s,
  wf_data s -> wf_data (state_of (run_listeners h ev ls s)).
Proof.
  induction ls as [|[a x] ls IH]; intros s Hwf; [done|].
  simpl. apply wf_data_and_then; [|done]. apply wf_data_run_listener.
  destruct (is_once x) eqn:Hx; [|done]. by apply wf_data_remove_listener.
Qed.

Lemma wf_data_step i s : wf_data s -> wf_data (state_of (step i s)).
Proof.
  intros Hwf. destruct i as [command cb keep|params cb|cb force|v|h ev]; simpl.
  - by apply wf_data_connect.
  - by apply wf_data_connect.
  - by apply wf_data_disconnect.
  - done.
  - unfold emit. destruct (sockets s !! h) as [k|]; [|done].
    destruct ev as [err|d|]; try by apply wf_data_run_listeners.
    destruct (listeners _ k) eqn:Hl; [done|].
    rewrite <- Hl. by apply wf_data_run_listeners.
Qed.

(** Every socket keeps its forwarding listener at the head of its
    listeners for ['data'], in every state the machine reaches. *)
Lemma wf_data_run inputs : forall s,
  wf_data s -> wf_data (state_of (run inputs s)).
Proof.
  induction inputs as [|i inputs IH]; intros s Hwf; [done|].
  simpl. apply wf_data_and_then; [by apply wf_data_step | done].
Qed.

Lemma wf_data_TorControl o : wf_data (TorControl o).
Proof. rewrite TorControl_closed. constructor. Qed.

Lemma quiet_same (s s' : State) :
  log s' = log s -> extends_quietly s (Returned s').
Proof. intros H. exists []. simpl. by rewrite H, app_nil_r. Qed.

Lemma quiet_thrown (s : State) (e : exn) : extends_quietly s (Thrown e s).
Proof. exists []. simpl. by rewrite app_nil_r. Qed.

Lemma quiet_call_user id args s : extends_quietly s (call_user id args s).
Proof. eexists [_]. simpl. split; [done|]. by repeat constructor. Qed.

Lemma quiet_after (s s1 : State) (o : outcome) :
  log s1 = log s -> extends_quietly s1 o -> extends_quietly s o.
Proof. intros H (more & Hl & Hm). exists more. by rewrite Hl, H. Qed.

Lemma quiet_call_disconnect_cb c s :
  extends_quietly s (call_disconnect_cb c s).
Proof.
  destruct c as [id|[id|] data]; simpl;
    [apply quiet_call_user | apply quiet_call_user | by apply quiet_same].
Qed.

Lemma quiet_disconnect cb force s : extends_quietly s (disconnect cb force s).
Proof.
  unfold disconnect. destruct (connection s) as [h|].
  - destruct (ToBoolean force); apply quiet_same; by destruct cb.
  - destruct cb as [c|]; [apply quiet_call_disconnect_cb | by apply quiet_same].
Qed.

Lemma quiet_call_connect_cb c r s : extends_quietly s (call_connect_cb c r s).
Proof.
  destruct c as [id|command cb keep]; simpl.
  - destruct r; apply quiet_call_user.
  - destruct r as [e|[h|]].
    + destruct cb; [apply quiet_call_user | apply quiet_thrown].
    + by apply quiet_same.
    + apply quiet_thrown.
Qed.

Lemma quiet_reader x d s :
  is_reader (0%nat, x) -> extends_quietly s (run_listener x (EvData d) s).
Proof.
  destruct x as [| | |c|cb keep|]; try done; intros _; cbn [run_listener].
  - destruct (bool_decide _); apply quiet_call_connect_cb.
  - unfold tryDisconnect.
    destruct (_ || _);
      [apply quiet_call_disconnect_cb | apply quiet_disconnect].
Qed.

Lemma quiet_readers h d ls : forall s,
  Forall is_reader ls ->
  extends_quietly s (run_listeners h (EvData d) ls s).
Proof.
  induction ls as [|[a x] ls IH]; intros s Hls.
  - by apply quiet_same.
  - apply Forall_cons in Hls as [Hx Hls]. cbn [run_listeners].
    set (s0 := if is_once x then remove_listener h (name_of (EvData d)) (a, x) s
               else s).
    assert (log s0 = log s) as Hl0 by (unfold s0; by destruct (is_once x)).
    destruct (quiet_reader x d s0 Hx) as (more & Hl & Hm).
    destruct (run_listener x (EvData d) s0) as [s1|e s1]; cbn [and_then].
    + destruct (IH s1 Hls) as (more' & Hl' & Hm').
      exists (more ++ more'). simpl in Hl. rewrite Hl', Hl, Hl0.
      split; [by rewrite app_assoc | by apply Forall_app].
    + exists more. by rewrite Hl, Hl0.
Qed.

(** X18: in every state the machine reaches, a chunk received on any
    of its sockets is first forwarded as a ['data'] event, once,
    whatever listeners wait on that socket and whatever they then do or
    throw. *)
Theorem chunks_are_forwarded (uo : option UserOpts) (inputs : list input)
        (s : State) (h : nat) (k : Socket) (d : jsstring) :
  run inputs (TorControl uo) = Returned s ->
  sockets s !! h = Some k ->
  exists more,
    log (state_of (emit h (EvData d) s)) = log s ++ EmitData d :: more /\
    Forall not_data_event more.
Proof.
  intros Hrun Hk.
  pose proof (wf_data_run inputs _ (wf_data_TorControl uo)) as Hwf.
  rewrite Hrun in Hwf. cbn [state_of] in Hwf.
  unfold emit. rewrite Hk. cbn [name_of listeners].
  eapply Forall_lookup in Hwf; [|exact Hk].
  unfold data_listeners_ok in Hwf.
  destruct (on_data k) as [|[a [| | | | |]] ls]; try done.
  cbn [run_listeners is_once run_listener and_then].
  destruct (quiet_readers h d ls (emit_obs (EmitData d) s) Hwf)
    as (more & Hl & Hm).
  exists more. split; [|done]. rewrite Hl. simpl. by rewrite <- app_assoc.
Qed.

Lemma chunks_are_forwarded_witness :
  exists more,
    log (state_of (emit 0 (EvData authenticated) awaiting_reply))
    = log awaiting_reply ++ EmitData authenticated :: more /\
    Forall not_data_event more.
Proof.
  exact (chunks_are_forwarded None
           [Call_sendCommand (str "SIGNAL NEWNYM") (Some 1%nat) VUndefined;
            Socket_emits 0 (EvData (str "250 OK" ++ CRLF))]
           awaiting_reply 0 awaiting_reply_socket authenticated
           eq_refl eq_refl).
Defined.

(** X19: the invariant of the machine.  In every state reached from a
    new object, the connection, when set, is one of the sockets
    [connect] has created, and every such socket still has its two
    permanent listeners first in line: the one that forwards chunks,
    followed only by listeners waiting for one chunk, and the one that
    clears the connection at the end of the stream, followed only by
    callbacks of [disconnect]. *)
Theorem reachable_states_are_well_formed (uo : option UserOpts)
        (inputs : list input) (s : State) :
  run inputs (TorControl uo) = Returned s ->
  wf s /\ wf_data s.
Proof.
  intros Hrun.
  pose proof (wf_run inputs _ (wf_TorControl uo)) as H1.
  pose proof (wf_data_run inputs _ (wf_data_TorControl uo)) as H2.
  rewrite Hrun in H1, H2. by split.
Qed.

Lemma reachable_states_are_well_formed_witness :
  wf awaiting_reply /\ wf_data awaiting_reply.
Proof.
  exact (reachable_states_are_well_formed None
           [Call_sendCommand (str "SIGNAL NEWNYM") (Some 1%nat) VUndefined;
            Socket_emits 0 (EvData (str "250 OK" ++ CRLF))]
           awaiting_reply eq_refl).
Defined.

(** X20: a command without a callback whose password is accepted is
    sent and closed like any other, nothing is called and nothing is
    thrown: the missing callback only matters when the connection
    fails. *)
Theorem command_without_callback (s : State) (command : jsstring)
        (keep : value) (ok reply : jsstring) :
  connection s = None ->
  begins_250 ok ->
  exists s',
    run [Call_sendCommand command None keep;
         Socket_emits (length (sockets s)) (EvData ok);
         Socket_emits (length (sockets s)) (EvData reply);
         Socket_emits (length (sockets s)) EvEnd] s
    = Returned s' /\
    connection s' = None /\
    calls (log s') = calls (log s) /\
    written_to (length (sockets s)) s'
    = [authenticate_line (password (opts s)); command_line command]
      ++ (if ToBoolean keep || isPersistent s then [] else [QUIT_line]).
Proof.
  destruct s as [o conn l n lg]. unfold isPersistent. simpl. intros -> Hok.
  machine. rewrite bool_decide_eq_true_2 by done. machine.
  destruct (ToBoolean keep || ToBoolean (persistent o)) eqn:Hkeep.
  - rewrite tryDisconnect_keep by done. machine.
    eexists. split; [reflexivity|]. machine. split; [done|]. split; [|done].
    rewrite !calls_app. simpl. by rewrite !app_nil_r.
  - rewrite (tryDisconnect_quit _ _ _ (length l)) by done. machine.
    eexists. split; [reflexivity|]. machine. split; [done|]. split; [|done].
    rewrite !calls_app. simpl. by rewrite !app_nil_r.
Qed.

Lemma command_without_callback_witness :
  exists s',
    run [Call_sendCommand (str "SIGNAL NEWNYM") None VUndefined;
         Socket_emits 0 (EvData authenticated);
         Socket_emits 0 (EvData authenticated);
         Socket_emits 0 EvEnd] (TorControl None)
    = Returned s' /\
    connection s' = None /\
    calls (log s') = [] /\
    written_to 0 s'
    = [authenticate_line []; command_line (str "SIGNAL NEWNYM"); QUIT_line].
Proof.
  exact (command_without_callback (TorControl None) (str "SIGNAL NEWNYM")
           VUndefined authenticated authenticated eq_refl eq_refl).
Defined.

(* ===================================================================== *)
(** ** The close and the delivery of the reply                            *)
(* ===================================================================== *)



